(** * node_network: reconciling the networks attached to a baremetal node

    A shallow embedding of [NodeNetworkModule] from
    [plugins/modules/node_network.py] of the [massopencloud.esi] collection,
    together with a model of the two OpenStack services it drives (Ironic
    for baremetal ports and VIFs, Neutron for networks and ports).

    The module's methods are written in a small state-and-exception monad
    over the cloud state; every state-mutating SDK call is also recorded in
    a log, so that statements about which calls were issued, and in which
    order, can be made. *)

From stdpp Require Import base option list strings gmap.

(** ** Resources of the two services *)

(** An Ironic node. *)
Record Node := mkNode {
  node_id : string;
  node_name : string
}.

(** An Ironic port.  [internal_info] is the dictionary the module inspects:
    a port carries a VIF exactly when the key ["tenant_vif_port_id"] is
    present. *)
Record BaremetalPort := mkBaremetalPort {
  bp_id : string;
  bp_node_uuid : string;
  internal_info : gmap string string
}.

(** A Neutron network. *)
Record Network := mkNetwork {
  net_id : string;
  net_name : string
}.

(** A Neutron port. *)
Record Port := mkPort {
  port_id : string;
  port_name : string;
  port_network_id : string;
  port_device_owner : string
}.

(** The state held by the two services. *)
Record Cloud := mkCloud {
  cloud_nodes : list Node;
  cloud_baremetal_ports : list BaremetalPort;
  cloud_networks : list Network;
  cloud_ports : list Port
}.

Global Instance Node_eq_dec : EqDecision Node.
Proof. solve_decision. Defined.
Global Instance BaremetalPort_eq_dec : EqDecision BaremetalPort.
Proof. solve_decision. Defined.
Global Instance Network_eq_dec : EqDecision Network.
Proof. solve_decision. Defined.
Global Instance Port_eq_dec : EqDecision Port.
Proof. solve_decision. Defined.

(** The key of [internal_info] under which Ironic records an attached VIF. *)
Definition tenant_vif_port_id : string := "tenant_vif_port_id".

(** ** Outcomes, events and the monad *)

(** The state-mutating SDK calls. *)
Inductive Event :=
  | DetachVif (node vif : string)
  | DeletePort (port : string)
  | CreatePort (name network_id device_owner : string)
  | AttachVif (node vif baremetal_port : string).

(** How a run can stop early: the SDK's [ResourceNotFound] raised by
    [find_node (..., ignore_missing=False)], the SDK's [DuplicateResource]
    raised by [find_port] when its argument is the id of no port and the
    name of several, or the module's own [fail_json]. *)
Inductive Failure :=
  | ResourceNotFound (name_or_id : string)
  | DuplicateResource (name_or_id : string)
  | fail_json (msg : string).

Inductive Result (A : Type) :=
  | Ok (a : A)
  | Raise (e : Failure).
Arguments Ok {A} a.
Arguments Raise {A} e.

(** A computation reads and updates the cloud state and emits the events of
    the mutating calls it made. *)
Definition M (A : Type) : Type := Cloud → Result A * Cloud * list Event.

Definition ret {A} (a : A) : M A := λ c, (Ok a, c, []).

Definition bind {A B} (m : M A) (f : A → M B) : M B := λ c,
  match m c with
  | (Ok a, c1, t1) =>
      match f a c1 with
      | (r, c2, t2) => (r, c2, t1 ++ t2)
      end
  | (Raise e, c1, t1) => (Raise e, c1, t1)
  end.

Definition raise {A} (e : Failure) : M A := λ c, (Raise e, c, []).

Definition gets {A} (f : Cloud → A) : M A := λ c, (Ok (f c), c, []).

Definition effect (ev : Event) (f : Cloud → Cloud) : M unit :=
  λ c, (Ok tt, f c, [ev]).

Declare Scope cloud_scope.
Delimit Scope cloud_scope with cloud.
Notation "x <- m ;; k" := (bind m (λ x, k))
  (at level 100, m at next level, right associativity) : cloud_scope.
Notation "m ;; k" := (bind m (λ _, k))
  (at level 100, right associativity) : cloud_scope.
Open Scope cloud_scope.

(** A Python [for x in l: body] whose body updates the local variables
    gathered in [s]; [continue] is a body that returns [s] as it is, and an
    exception leaves the loop. *)
Fixpoint for_loop {A S} (l : list A) (s : S) (body : S → A → M S) : M S :=
  match l with
  | [] => ret s
  | x :: l' => s' <- body s x ;; for_loop l' s' body
  end.

Definition result_of {A} (r : Result A * Cloud * list Event) : Result A := r.1.1.
Definition cloud_of {A} (r : Result A * Cloud * list Event) : Cloud := r.1.2.
Definition log_of {A} (r : Result A * Cloud * list Event) : list Event := r.2.

(** ** The services *)

(** [conn.baremetal.find_node(name_or_id, ignore_missing=False)]: lookup
    by id first, then by name; raises when nothing matches. *)
Definition lookup_node (c : Cloud) (name_or_id : string) : option Node :=
  match filter (λ n, node_id n = name_or_id) (cloud_nodes c) with
  | n :: _ => Some n
  | [] => head (filter (λ n, node_name n = name_or_id) (cloud_nodes c))
  end.

Definition find_node (name_or_id : string) : M Node := λ c,
  match lookup_node c name_or_id with
  | Some n => ret n c
  | None => raise (ResourceNotFound name_or_id) c
  end.

(** [conn.baremetal.ports(details=True, node_id=...)]. *)
Definition ports_of_node (c : Cloud) (node : string) : list BaremetalPort :=
  filter (λ bp, bp_node_uuid bp = node) (cloud_baremetal_ports c).

Definition conn_baremetal_ports (node : string) : M (list BaremetalPort) :=
  gets (λ c, ports_of_node c node).

(** [conn.network.networks()]. *)
Definition conn_network_networks : M (list Network) := gets cloud_networks.

(** [conn.network.ports(name=...)]. *)
Definition ports_named (c : Cloud) (name : string) : list Port :=
  filter (λ p, port_name p = name) (cloud_ports c).

Definition conn_network_ports (name : string) : M (list Port) :=
  gets (λ c, ports_named c name).

(** [conn.network.find_port(name_or_id, ignore_missing=True)]: the port
    of that id when there is one; otherwise the ports of that name are
    listed, and the answer is [None] when there is none, the port when
    there is one, and the SDK raises [DuplicateResource] when there are
    several. *)
Definition lookup_port (c : Cloud) (name_or_id : string) : Result (option Port) :=
  match filter (λ p, port_id p = name_or_id) (cloud_ports c) with
  | p :: _ => Ok (Some p)
  | [] =>
      match ports_named c name_or_id with
      | [] => Ok None
      | [p] => Ok (Some p)
      | _ :: _ :: _ => Raise (DuplicateResource name_or_id)
      end
  end.

Definition find_port (name_or_id : string) : M (option Port) :=
  λ c, (lookup_port c name_or_id, c, []).

(** [conn.network.delete_port(port_id)]. *)
Definition remove_port (port : string) (c : Cloud) : Cloud :=
  mkCloud (cloud_nodes c) (cloud_baremetal_ports c) (cloud_networks c)
          (filter (λ p, port_id p ≠ port) (cloud_ports c)).

Definition delete_port (port : string) : M unit :=
  effect (DeletePort port) (remove_port port).

(** [conn.baremetal.detach_vif_from_node(node, vif_id)]: the node's port
    that carries the VIF loses the key. *)
Definition clear_vif (node vif : string) (bp : BaremetalPort) : BaremetalPort :=
  if decide (bp_node_uuid bp = node ∧ internal_info bp !! tenant_vif_port_id = Some vif)
  then mkBaremetalPort (bp_id bp) (bp_node_uuid bp)
         (delete tenant_vif_port_id (internal_info bp))
  else bp.

Definition unplug (node vif : string) (c : Cloud) : Cloud :=
  mkCloud (cloud_nodes c) (clear_vif node vif <$> cloud_baremetal_ports c)
          (cloud_networks c) (cloud_ports c).

Definition detach_vif_from_node (node : Node) (vif : string) : M unit :=
  effect (DetachVif (node_id node) vif) (unplug (node_id node) vif).

(** [conn.baremetal.attach_vif_to_node(node, vif_id, port_id=...)]: the
    named port of the node records the VIF. *)
Definition set_vif (node vif port : string) (bp : BaremetalPort) : BaremetalPort :=
  if decide (bp_node_uuid bp = node ∧ bp_id bp = port)
  then mkBaremetalPort (bp_id bp) (bp_node_uuid bp)
         (<[tenant_vif_port_id := vif]> (internal_info bp))
  else bp.

Definition plug (node vif port : string) (c : Cloud) : Cloud :=
  mkCloud (cloud_nodes c) (set_vif node vif port <$> cloud_baremetal_ports c)
          (cloud_networks c) (cloud_ports c).

Definition attach_vif_to_node (node : Node) (vif port : string) : M unit :=
  effect (AttachVif (node_id node) vif port) (plug (node_id node) vif port).

(** An identifier generator that hands out a string not yet used as a port
    id, as Neutron's UUIDs do. *)
Definition unused_port_id (c : Cloud) : string :=
  fresh (port_id <$> cloud_ports c).

(** ** Example states

    One node, ["N"], with the networks and ports of the scenarios the
    statements below are tried on. *)

Definition node_N : Node := mkNode "node-1" "N".
Definition net_A : Network := mkNetwork "net-a-id" "net-A".
Definition net_B : Network := mkNetwork "net-b-id" "net-B".
Definition net_C : Network := mkNetwork "net-c-id" "net-C".
Definition port_A : Port := mkPort "port-a" "N-net-A" "net-a-id" "baremetal:none".

Definition free_port (id : string) : BaremetalPort :=
  mkBaremetalPort id "node-1" ∅.
Definition busy_port (id vif : string) : BaremetalPort :=
  mkBaremetalPort id "node-1" {[ tenant_vif_port_id := vif ]}.

(** Two baremetal ports, one free and one carrying net-A through the port
    the module would have created for it. *)
Definition cloud_scenario : Cloud :=
  mkCloud [node_N] [free_port "bm-1"; busy_port "bm-2" "port-a"]
          [net_A; net_B] [port_A].

(** The same, but net-A was attached through a port that does not bear the
    name the module expects. *)
Definition cloud_foreign : Cloud :=
  mkCloud [node_N] [free_port "bm-1"; busy_port "bm-2" "port-a"]
          [net_A; net_B]
          [mkPort "port-a" "manual-port" "net-a-id" "compute:nova"].

(** net-B is attached through a port that bears the name expected for
    net-A, and net-A through a port of another name. *)
Definition cloud_misnamed : Cloud :=
  mkCloud [node_N] [busy_port "bm-1" "port-x"; busy_port "bm-2" "port-y"]
          [net_A; net_B]
          [mkPort "port-x" "N-net-A" "net-b-id" "baremetal:none";
           mkPort "port-y" "manual-port" "net-a-id" "compute:nova"].

(** A single baremetal port, carrying net-A. *)
Definition cloud_full : Cloud :=
  mkCloud [node_N] [busy_port "bm-1" "port-a"] [net_A; net_B; net_C] [port_A].

(** Two baremetal ports, carrying net-A and net-B through the ports the
    module would have created for them, and two more networks. *)
Definition net_D : Network := mkNetwork "net-d-id" "net-D".
Definition port_B : Port := mkPort "port-b" "N-net-B" "net-b-id" "baremetal:none".

Definition cloud_pair : Cloud :=
  mkCloud [node_N] [busy_port "bm-1" "port-a"; busy_port "bm-2" "port-b"]
          [net_A; net_B; net_C; net_D] [port_A; port_B].

(** The VIF recorded on the node's port is the id of no port and the name
    of two. *)
Definition cloud_ambiguous : Cloud :=
  mkCloud [node_N] [busy_port "bm-1" "twin"] [net_A; net_B]
          [mkPort "port-1" "twin" "net-a-id" "compute:nova";
           mkPort "port-2" "twin" "net-b-id" "compute:nova"].

(** Two networks of the same name, nothing attached. *)
Definition cloud_twins : Cloud :=
  mkCloud [node_N] [free_port "bm-1"; free_port "bm-2"]
          [mkNetwork "net-a-id" "shared"; mkNetwork "net-b-id" "shared"] [].

(** Nothing attached, and a port that bears the name expected for net-A
    while it is on net-B. *)
Definition cloud_stray : Cloud :=
  mkCloud [node_N] [free_port "bm-1"] [net_A; net_B]
          [mkPort "port-x" "N-net-A" "net-b-id" "baremetal:none"].

(** ** The module *)

Section NodeNetworkModule.

(** The id Neutron gives to the next port it creates. *)
Variable new_port_id : Cloud → string.

(** [conn.network.create_port(name=..., network_id=..., device_owner=...)]. *)
Definition add_port (p : Port) (c : Cloud) : Cloud :=
  mkCloud (cloud_nodes c) (cloud_baremetal_ports c) (cloud_networks c)
          (cloud_ports c ++ [p]).

Definition create_port (name network_id device_owner : string) : M Port := λ c,
  let p := mkPort (new_port_id c) name network_id device_owner in
  (Ok p, add_port p c, [CreatePort name network_id device_owner]).

(** ["%s-%s" % (node_name, network_name)] *)
Definition port_name_for (node_name network_name : string) : string :=
  node_name +:+ "-" +:+ network_name.

Definition _find_network_port (node_name network_name : string) : M (option Port) :=
  let port_name := port_name_for node_name network_name in
  existing_ports <- conn_network_ports port_name ;;
  match existing_ports with
  | p :: _ => ret (Some p)
  | [] => ret None
  end.

Definition _create_network_port (node_name : string) (network : Network) : M Port :=
  let port_name := port_name_for node_name (net_name network) in
  create_port port_name (net_id network) "baremetal:none".

Fixpoint _find_matching_baremetal_port
    (baremetal_ports : list BaremetalPort) (network_port : option Port)
    : option BaremetalPort :=
  match network_port with
  | None => None
  | Some np =>
      match baremetal_ports with
      | [] => None
      | bp :: rest =>
          if decide (internal_info bp !! tenant_vif_port_id = Some (port_id np))
          then Some bp
          else _find_matching_baremetal_port rest network_port
      end
  end.

Fixpoint _find_free_baremetal_port
    (baremetal_ports : list BaremetalPort) : option BaremetalPort :=
  match baremetal_ports with
  | [] => None
  | bp :: rest =>
      if decide (internal_info bp !! tenant_vif_port_id = None)
      then Some bp
      else _find_free_baremetal_port rest
  end.

(** [next(net for net in networks if net.id == network_id)], with
    [StopIteration] as [None]. *)
Definition first_network (networks : list Network) (network_id : string)
    : option Network :=
  head (filter (λ net, net_id net = network_id) networks).

(** One iteration of the loop of [_get_currently_attached_networks] over
    the baremetal ports; the local variable it updates is
    [attached_networks].  An exception of [find_port] is not caught: the
    [try] covers the search in [networks] only. *)
Definition collect_attached_network (networks : list Network)
    (attached_networks : list Network) (bp : BaremetalPort) : M (list Network) :=
  match internal_info bp !! tenant_vif_port_id with
  | Some vif =>
      network_port <- find_port vif ;;
      match network_port with
      | Some np =>
          match first_network networks (port_network_id np) with
          | Some network => ret (attached_networks ++ [network])
          | None => ret attached_networks
          end
      | None => ret attached_networks
      end
  | None => ret attached_networks
  end.

Definition _get_currently_attached_networks
    (baremetal_ports : list BaremetalPort) (networks : list Network)
    : M (list Network) :=
  for_loop baremetal_ports [] (collect_attached_network networks).

(** [[net for net in networks if net.name in desired or net.id in desired]] *)
Definition desired_network_objects (networks : list Network)
    (desired_networks : list string) : list Network :=
  filter (λ net, net_name net ∈ desired_networks ∨ net_id net ∈ desired_networks)
         networks.

Definition network_ids (networks : list Network) : gset string :=
  list_to_set (net_id <$> networks).

Definition networks_to_detach (desired current : list Network) : list Network :=
  let desired_network_ids := network_ids desired in
  filter (λ net, net_id net ∉ desired_network_ids) current.

Definition networks_to_attach (desired current : list Network) : list Network :=
  let current_network_ids := network_ids current in
  filter (λ net, net_id net ∉ current_network_ids) desired.

(** ['Node %s has no free ports \<newline> for network %s' % (node.id,
    network.name)]: the backslash joins the two source lines, so the
    indentation of the second one is part of the message. *)
Definition no_free_ports_msg (node : Node) (network : Network) : string :=
  "Node " +:+ node_id node +:+ " has no free ports " +:+
  "                    for network " +:+ net_name network.

(** One iteration of the loop over [networks_to_detach]. *)
Definition detach_network (node : Node) (baremetal_ports : list BaremetalPort)
    (changed : bool) (network : Network) : M bool :=
  network_port <- _find_network_port (node_name node) (net_name network) ;;
  match network_port with
  | None => ret changed
  | Some np =>
      match _find_matching_baremetal_port baremetal_ports network_port with
      | Some _ =>
          detach_vif_from_node node (port_id np) ;;
          delete_port (port_id np) ;;
          ret true
      | None => ret changed
      end
  end.

(** One iteration of the loop over [networks_to_attach]; the local
    variables it updates are [baremetal_ports] and [changed]. *)
Definition attach_network (node : Node) (s : list BaremetalPort * bool)
    (network : Network) : M (list BaremetalPort * bool) :=
  let changed := s.2 in
  baremetal_ports <- conn_baremetal_ports (node_id node) ;;
  found <- _find_network_port (node_name node) (net_name network) ;;
  network_port <- match found with
                  | Some np => ret np
                  | None => _create_network_port (node_name node) network
                  end ;;
  match _find_matching_baremetal_port baremetal_ports (Some network_port) with
  | Some _ => ret (baremetal_ports, changed)
  | None =>
      match _find_free_baremetal_port baremetal_ports with
      | None => raise (fail_json (no_free_ports_msg node network))
      | Some baremetal_port =>
          attach_vif_to_node node (port_id network_port) (bp_id baremetal_port) ;;
          ret (baremetal_ports, true)
      end
  end.

(** [exit_json(changed=changed)] ends the run with its result. *)
Definition exit_json (changed : bool) : M bool := ret changed.

Definition run (params_node : string) (params_networks : option (list string))
    : M bool :=
  node <- find_node params_node ;;
  let desired_networks := default [] params_networks in
  baremetal_ports <- conn_baremetal_ports (node_id node) ;;
  networks <- conn_network_networks ;;
  let changed := false in
  let desired := desired_network_objects networks desired_networks in
  current <- _get_currently_attached_networks baremetal_ports networks ;;
  let to_detach := networks_to_detach desired current in
  let to_attach := networks_to_attach desired current in
  changed <- for_loop to_detach changed (detach_network node baremetal_ports) ;;
  s <- for_loop to_attach (baremetal_ports, changed) (attach_network node) ;;
  exit_json s.2.

(** ** Vocabulary of the statements *)

(** The calls that attach or detach a VIF. *)
Definition is_vif_call (ev : Event) : Prop :=
  match ev with
  | DetachVif _ _ | AttachVif _ _ _ => True
  | DeletePort _ | CreatePort _ _ _ => False
  end.

(** The calls of the attach phase. *)
Definition is_attach_phase_call (ev : Event) : Prop :=
  match ev with
  | CreatePort _ _ _ | AttachVif _ _ _ => True
  | DetachVif _ _ | DeletePort _ => False
  end.

(** A baremetal port carries the VIF [vif]. *)
Definition carries (vif : string) (bp : BaremetalPort) : Prop :=
  internal_info bp !! tenant_vif_port_id = Some vif.

(** A baremetal port is free: its [internal_info] lacks the key. *)
Definition is_free (bp : BaremetalPort) : Prop :=
  internal_info bp !! tenant_vif_port_id = None.

(** The port an attach iteration ends up with in [network_port]: the
    first port that bears the expected name or, when there is none, a
    new one; with it, the state after that step and the call issued. *)
Definition located_or_created (node : Node) (network : Network) (c : Cloud)
    : Port * Cloud * list Event :=
  let name := port_name_for (node_name node) (net_name network) in
  match ports_named c name with
  | np :: _ => (np, c, [])
  | [] =>
      let np := mkPort (new_port_id c) name (net_id network) "baremetal:none" in
      (np, add_port np c, [CreatePort name (net_id network) "baremetal:none"])
  end.

(** The calls one detach iteration may issue for [network]: none, or the
    VIF detach followed by the deletion of the port just detached. *)
Definition detach_calls (node : Node) (network : Network) (evs : list Event) : Prop :=
  evs = [] ∨
  ∃ np, port_name np = port_name_for (node_name node) (net_name network) ∧
        evs = [DetachVif (node_id node) (port_id np); DeletePort (port_id np)].

(** The calls one attach iteration may issue for [network]: the creation
    of the port named after node and network, then the VIF attach, each
    of them optional. *)
Definition attach_calls (node : Node) (network : Network) (evs : list Event) : Prop :=
  ∃ vif bp,
    evs `sublist_of`
      [CreatePort (port_name_for (node_name node) (net_name network))
         (net_id network) "baremetal:none";
       AttachVif (node_id node) vif bp].

(** What one detach iteration does for [network] in the state [c]: when
    the first port that bears the expected name is carried by a port of
    [bps], its VIF is detached from the node and the port is deleted;
    when no port bears the name, or the first that does is carried by no
    port of [bps], nothing is done. *)
Definition detach_step (node : Node) (bps : list BaremetalPort) (network : Network)
    (c : Cloud) (evs : list Event) (c' : Cloud) : Prop :=
  let name := port_name_for (node_name node) (net_name network) in
  (∃ np rest bp,
     ports_named c name = np :: rest ∧ bp ∈ bps ∧ carries (port_id np) bp ∧
     evs = [DetachVif (node_id node) (port_id np); DeletePort (port_id np)] ∧
     c' = remove_port (port_id np) (unplug (node_id node) (port_id np) c)) ∨
  ((ports_named c name = [] ∨
    ∃ np rest, ports_named c name = np :: rest ∧
               ∀ bp, bp ∈ bps → ¬ carries (port_id np) bp) ∧
   evs = [] ∧ c' = c).

(** What one attach iteration does for [network] in the state [c], with
    the port found or created: nothing more when a port of the node
    carries it; otherwise its VIF is attached to the first port of the
    node that is free; and when no port is free the iteration stops
    there, which is the failure of the run. *)
Definition attach_step (node : Node) (network : Network)
    (c : Cloud) (evs : list Event) (c' : Cloud) : Prop :=
  let bps := ports_of_node c (node_id node) in
  let np := (located_or_created node network c).1.1 in
  let c1 := (located_or_created node network c).1.2 in
  let created := (located_or_created node network c).2 in
  ((∃ bp, bp ∈ bps ∧ carries (port_id np) bp) ∧ evs = created ∧ c' = c1) ∨
  ((∀ bp, bp ∈ bps → ¬ carries (port_id np) bp) ∧
   ∃ pre bp post,
     bps = pre ++ bp :: post ∧ Forall (λ b, ¬ is_free b) pre ∧ is_free bp ∧
     evs = created ++ [AttachVif (node_id node) (port_id np) (bp_id bp)] ∧
     c' = plug (node_id node) (port_id np) (bp_id bp) c1) ∨
  ((∀ bp, bp ∈ bps → ¬ carries (port_id np) bp) ∧
   Forall (λ b, ¬ is_free b) bps ∧ evs = created ∧ c' = c1).

(** The iterations of a loop, one after the other: [groups] holds the
    calls of the iteration of each element of [l], in the order of [l],
    every iteration starting in the state the one before it ended in. *)
Inductive iterations {A} (step : A → Cloud → list Event → Cloud → Prop)
    : list A → Cloud → list (list Event) → Cloud → Prop :=
  | iterations_nil c : iterations step [] c [] c
  | iterations_cons x l c evs c1 groups c2 :
      step x c evs c1 → iterations step l c1 groups c2 →
      iterations step (x :: l) c (evs :: groups) c2.

(** The module finds the port of a network by its name alone.  A state
    follows the convention, for a node, when that is enough: networks
    are told apart by id and by name, ports by id, the node's baremetal
    ports by id; a port that bears the name the module gives to the port
    of a listed network is on that network and is the only port of that
    name; and every VIF carried by the node's baremetal ports is such a
    port. *)
Record follows_convention (c : Cloud) (node : Node) : Prop := {
  fc_net_ids : NoDup (net_id <$> cloud_networks c);
  fc_net_names : NoDup (net_name <$> cloud_networks c);
  fc_port_ids : NoDup (port_id <$> cloud_ports c);
  fc_bp_ids : NoDup (bp_id <$> ports_of_node c (node_id node));
  fc_named : ∀ n p,
    n ∈ cloud_networks c → p ∈ cloud_ports c →
    port_name p = port_name_for (node_name node) (net_name n) →
    port_network_id p = net_id n ∧
    ∀ q, q ∈ cloud_ports c → port_name q = port_name p → q = p;
  fc_vifs : ∀ bp vif,
    bp ∈ ports_of_node c (node_id node) → carries vif bp →
    ∃ p n, p ∈ cloud_ports c ∧ port_id p = vif ∧ n ∈ cloud_networks c ∧
           port_name p = port_name_for (node_name node) (net_name n)
}.

(** The network's port, named by the convention, is carried by one of
    the node's baremetal ports. *)
Definition plugged (c : Cloud) (node : Node) (n : Network) : Prop :=
  ∃ p bp, p ∈ cloud_ports c ∧
          port_name p = port_name_for (node_name node) (net_name n) ∧
          bp ∈ ports_of_node c (node_id node) ∧ carries (port_id p) bp.

(** The list of ports fetched at the start of the run still shows every
    VIF the node carries now. *)
Definition shows_vifs (bps0 : list BaremetalPort) (c : Cloud) (node : Node) : Prop :=
  ∀ bp vif, bp ∈ ports_of_node c (node_id node) → carries vif bp →
            ∃ bp0, bp0 ∈ bps0 ∧ carries vif bp0.

(** The network a baremetal port is found attached to: the first listed
    network with the network id of the port its VIF resolves to; none
    when the port is free, when its VIF resolves to no port or to
    several, or when no listed network has that id. *)
Definition attached_network (c : Cloud) (networks : list Network)
    (bp : BaremetalPort) : option Network :=
  match internal_info bp !! tenant_vif_port_id with
  | Some vif =>
      match lookup_port c vif with
      | Ok (Some network_port) => first_network networks (port_network_id network_port)
      | _ => None
      end
  | None => None
  end.

(** The networks the baremetal ports are found attached to, in the order
    of the ports: what [_get_currently_attached_networks] returns when it
    returns. *)
Definition currently_attached (c : Cloud) (baremetal_ports : list BaremetalPort)
    (networks : list Network) : list Network :=
  omap (attached_network c networks) baremetal_ports.

(** The ids of the networks attached to the node, as the module derives
    them from the node's baremetal ports. *)
Definition attached_network_ids (c : Cloud) (node : Node) : gset string :=
  network_ids (currently_attached c (ports_of_node c (node_id node)) (cloud_networks c)).

Global Instance is_free_dec bp : Decision (is_free bp).
Proof. unfold is_free. apply _. Defined.

Global Instance carries_dec vif bp : Decision (carries vif bp).
Proof. unfold carries. apply _. Defined.

(** The node's ports that are free, in fetch order. *)
Definition free_ports (c : Cloud) (node : Node) : list BaremetalPort :=
  filter is_free (ports_of_node c (node_id node)).

(** What a run has no call to change: the nodes, the networks, which
    baremetal ports there are and on which node, and the baremetal ports
    of the other nodes. *)
Definition out_of_reach (node : string) (c : Cloud)
    : list Node * list Network * list (string * string) * list BaremetalPort :=
  (cloud_nodes c, cloud_networks c,
   (λ bp, (bp_id bp, bp_node_uuid bp)) <$> cloud_baremetal_ports c,
   filter (λ bp, bp_node_uuid bp ≠ node) (cloud_baremetal_ports c)).

(** The VIFs recorded on the baremetal ports. *)
Definition carried_vifs (c : Cloud) : list string :=
  omap (λ bp, internal_info bp !! tenant_vif_port_id) (cloud_baremetal_ports c).

(** An identifier generator that hands out a string that is neither the
    id of a port nor a VIF recorded on a baremetal port. *)
Definition uncarried_port_id (c : Cloud) : string :=
  fresh ((port_id <$> cloud_ports c) ++ carried_vifs c).

(** The port [p], named after a network that is not to be detached, is
    carried by the baremetal port of id [bid], and no call so far was
    about it. *)
Definition undisturbed (node : Node) (nets : list Network) (p : Port) (bid : string)
    (c : Cloud) : Prop :=
  follows_convention c node ∧ cloud_networks c = nets ∧ p ∈ cloud_ports c ∧
  ∃ bp, bp ∈ ports_of_node c (node_id node) ∧ bp_id bp = bid ∧ carries (port_id p) bp.

Definition leaves_alone (node : Node) (p : Port) (ev : Event) : Prop :=
  ev ≠ DetachVif (node_id node) (port_id p) ∧ ev ≠ DeletePort (port_id p).

(** ** Lemmas on the monad and on the steps *)

Lemma bind_Ok {A B} (m : M A) (f : A → M B) c a c1 t1 :
  m c = (Ok a, c1, t1) →
  bind m f c = ((f a c1).1.1, (f a c1).1.2, t1 ++ (f a c1).2).
Proof.
  intros Hm. unfold bind. rewrite Hm.
  destruct (f a c1) as [[r c2] t2]. reflexivity.
Qed.

Lemma bind_Raise {A B} (m : M A) (f : A → M B) c e c1 t1 :
  m c = (Raise e, c1, t1) → bind m f c = (Raise e, c1, t1).
Proof. intros Hm. unfold bind. rewrite Hm. reflexivity. Qed.

Lemma for_loop_cons {A S} (x : A) l (s : S) body c :
  for_loop (x :: l) s body c = bind (body s x) (λ s', for_loop l s' body) c.
Proof. reflexivity. Qed.

Lemma for_loop_app {A S} (l1 l2 : list A) (s : S) body c s1 c1 t1 :
  for_loop l1 s body c = (Ok s1, c1, t1) →
  for_loop (l1 ++ l2) s body c =
    ((for_loop l2 s1 body c1).1.1, (for_loop l2 s1 body c1).1.2,
     t1 ++ (for_loop l2 s1 body c1).2).
Proof.
  revert s c t1. induction l1 as [|x l1 IH]; intros s c t1 H.
  - cbn in H. injection H as <- <- <-. cbn.
    destruct (for_loop l2 s body c) as [[r c2] t2]. reflexivity.
  - cbn [app]. rewrite for_loop_cons in *. unfold bind in *.
    destruct (body s x c) as [[[s'|e] c'] t'].
    + destruct (for_loop l1 s' body c') as [[r1 c1'] t1'] eqn:E.
      injection H as -> <- <-.
      rewrite (IH _ _ _ E). cbn. by rewrite app_assoc.
    + discriminate.
Qed.

Lemma for_loop_bind {A S} (l1 l2 : list A) (s : S) body c :
  for_loop (l1 ++ l2) s body c
  = bind (for_loop l1 s body) (λ s1, for_loop l2 s1 body) c.
Proof.
  revert s c. induction l1 as [|x l1 IH]; intros s c.
  - cbn. unfold bind, ret. by destruct (for_loop l2 s body c) as [[r c2] t2].
  - cbn [app for_loop]. unfold bind.
    destruct (body s x c) as [[[s'|e] c'] t']; [|done].
    rewrite IH. unfold bind.
    destruct (for_loop l1 s' body c') as [[[s1|e1] c1] t1]; [|done].
    destruct (for_loop l2 s1 body c1) as [[r2 c2] t2]. by rewrite app_assoc.
Qed.

(** [find_port] fails in one way only: the reference is the id of no
    port and the name of several. *)
Lemma lookup_port_Raise c name_or_id e :
  lookup_port c name_or_id = Raise e →
  e = DuplicateResource name_or_id ∧
  filter (λ p, port_id p = name_or_id) (cloud_ports c) = [] ∧
  2 ≤ length (ports_named c name_or_id).
Proof.
  unfold lookup_port. destruct (filter _ (cloud_ports c)); [|done].
  destruct (ports_named c name_or_id) as [|p [|q l]]; [done..|].
  intros [= <-]. split_and!; [done..|cbn; lia].
Qed.

(** One step of the walk over the baremetal ports, as a function of the
    state it runs in. *)
Lemma collect_attached_network_eq networks acc bp c :
  collect_attached_network networks acc bp c =
    match internal_info bp !! tenant_vif_port_id with
    | Some vif =>
        match lookup_port c vif with
        | Ok _ => (Ok (acc ++ option_list (attached_network c networks bp)), c, [])
        | Raise e => (Raise e, c, [])
        end
    | None => (Ok acc, c, [])
    end.
Proof.
  unfold collect_attached_network, attached_network, find_port, bind.
  destruct (internal_info bp !! tenant_vif_port_id) as [vif|]; [|done].
  destruct (lookup_port c vif) as [[np|]|e]; cbn; [|by rewrite app_nil_r|done].
  destruct (first_network _ _); cbn; [done|by rewrite app_nil_r].
Qed.

(** The walk either gets through, and has collected the networks of
    [currently_attached], or stops at the first port whose VIF
    [find_port] refuses; it changes nothing and issues no call. *)
Lemma collect_loop networks bps acc c :
  for_loop bps acc (collect_attached_network networks) c
  = (Ok (acc ++ currently_attached c bps networks), c, []) ∨
  ∃ pre bp post vif,
    bps = pre ++ bp :: post ∧ carries vif bp ∧
    lookup_port c vif = Raise (DuplicateResource vif) ∧
    (∀ b v, b ∈ pre → carries v b → ∃ found, lookup_port c v = Ok found) ∧
    for_loop bps acc (collect_attached_network networks) c
    = (Raise (DuplicateResource vif), c, []).
Proof.
  revert acc. induction bps as [|bp bps IH]; intros acc.
  { left. cbn. by rewrite app_nil_r. }
  rewrite for_loop_cons. unfold bind. rewrite collect_attached_network_eq.
  unfold currently_attached. cbn [omap list_omap]. fold (omap (attached_network c networks) bps).
  fold (currently_attached c bps networks).
  destruct (internal_info bp !! tenant_vif_port_id) as [vif|] eqn:Hvif.
  - destruct (lookup_port c vif) as [found|e] eqn:Hfound.
    + destruct (IH (acc ++ option_list (attached_network c networks bp)))
        as [->|(pre & b & post & v & -> & Hcar & Hv & Hpre & ->)].
      * left. destruct (attached_network c networks bp); cbn; [|by rewrite app_nil_r].
        by rewrite <- app_assoc.
      * right. exists (bp :: pre), b, post, v. split_and!; [done..| |done].
        intros b' v' [->|Hb']%elem_of_cons Hcar'; [|by eapply Hpre].
        unfold carries in Hcar'. rewrite Hvif in Hcar'. injection Hcar' as <-.
        by exists found.
    + destruct (lookup_port_Raise _ _ _ Hfound) as (-> & _).
      right. exists [], bp, bps, vif. split_and!; [done..| |done].
      by intros b v ?%elem_of_nil.
  - assert (attached_network c networks bp = None) as ->
      by (unfold attached_network; by rewrite Hvif).
    destruct (IH acc) as [->|(pre & b & post & v & -> & Hcar & Hv & Hpre & ->)].
    + by left.
    + right. exists (bp :: pre), b, post, v. split_and!; [done..| |done].
      intros b' v' [->|Hb']%elem_of_cons Hcar'; [|by eapply Hpre].
      unfold carries in Hcar'. congruence.
Qed.

Lemma _get_currently_attached_networks_cases bps networks c :
  _get_currently_attached_networks bps networks c
  = (Ok (currently_attached c bps networks), c, []) ∨
  ∃ bp vif,
    bp ∈ bps ∧ carries vif bp ∧ lookup_port c vif = Raise (DuplicateResource vif) ∧
    _get_currently_attached_networks bps networks c
    = (Raise (DuplicateResource vif), c, []).
Proof.
  unfold _get_currently_attached_networks.
  destruct (collect_loop networks bps [] c)
    as [->|(pre & bp & post & vif & -> & Hcar & Hvif & _ & ->)]; [by left|].
  right. exists bp, vif. split_and!; [|done..]. apply elem_of_app. right. left.
Qed.

Lemma _get_currently_attached_networks_inv bps networks c current c' t :
  _get_currently_attached_networks bps networks c = (Ok current, c', t) →
  current = currently_attached c bps networks ∧ c' = c ∧ t = [].
Proof.
  destruct (_get_currently_attached_networks_cases bps networks c)
    as [->|(bp & vif & _ & _ & _ & ->)]; [|done].
  by intros [= <- <- <-].
Qed.

(** When every VIF the ports carry is one [find_port] answers, the walk
    gets through. *)
Lemma _get_currently_attached_networks_Ok bps networks c :
  (∀ bp vif, bp ∈ bps → carries vif bp → ∃ found, lookup_port c vif = Ok found) →
  _get_currently_attached_networks bps networks c
  = (Ok (currently_attached c bps networks), c, []).
Proof.
  intros Hok.
  destruct (_get_currently_attached_networks_cases bps networks c)
    as [->|(bp & vif & Hbp & Hcar & Hvif & _)]; [done|].
  destruct (Hok bp vif Hbp Hcar) as [found Hfound]. congruence.
Qed.

Lemma _find_matching_baremetal_port_Some bps np bp :
  _find_matching_baremetal_port bps (Some np) = Some bp →
  bp ∈ bps ∧ carries (port_id np) bp.
Proof.
  induction bps as [|b bps IH]; cbn; [done|].
  case_decide as Hb.
  - intros [= <-]. split; [left|done].
  - intros H. destruct (IH H). split; [by right|done].
Qed.

Lemma _find_matching_baremetal_port_None bps np :
  _find_matching_baremetal_port bps (Some np) = None ↔
  ∀ bp, bp ∈ bps → ¬ carries (port_id np) bp.
Proof.
  induction bps as [|b bps IH]; cbn.
  - split; [|done]. intros _ bp Hbp. by apply elem_of_nil in Hbp.
  - case_decide as Hb.
    + split; [done|]. intros H. destruct (H b); [left|done].
    + rewrite IH. split.
      * intros H bp [->|Hbp]%elem_of_cons; [done|by apply H].
      * intros H bp Hbp. apply H. by right.
Qed.

(** The port found is the first one, in fetch order, that lacks the
    key. *)
Lemma _find_free_baremetal_port_Some bps bp :
  _find_free_baremetal_port bps = Some bp ↔
  ∃ pre post, bps = pre ++ bp :: post ∧ Forall (λ b, ¬ is_free b) pre ∧ is_free bp.
Proof.
  induction bps as [|b bps IH]; cbn.
  - split; [done|]. intros (pre & post & H & _). by destruct pre.
  - case_decide as Hb.
    + split.
      * intros [= <-]. by exists [], bps.
      * intros (pre & post & H & Hpre & Hbp). destruct pre as [|b' pre].
        { by injection H as ->. }
        injection H as -> ->. by apply Forall_cons in Hpre as [? _].
    + rewrite IH. split.
      * intros (pre & post & -> & Hpre & Hbp).
        exists (b :: pre), post. split_and!; [done| |done].
        by apply Forall_cons.
      * intros (pre & post & H & Hpre & Hbp). destruct pre as [|b' pre].
        { by injection H as ->. }
        injection H as -> ->. apply Forall_cons in Hpre as [_ Hpre].
        by exists pre, post.
Qed.

Lemma _find_free_baremetal_port_None bps :
  _find_free_baremetal_port bps = None ↔ Forall (λ b, ¬ is_free b) bps.
Proof.
  induction bps as [|b bps IH]; cbn.
  - split; [by constructor|done].
  - case_decide as Hb.
    + split; [done|]. by intros [? _]%Forall_cons.
    + rewrite IH. split; [by constructor|by intros [_ ?]%Forall_cons].
Qed.

Lemma ports_named_head c name np rest :
  ports_named c name = np :: rest → np ∈ cloud_ports c ∧ port_name np = name.
Proof.
  intros H. assert (np ∈ ports_named c name) as Hin by (rewrite H; left).
  apply list_elem_of_filter in Hin. tauto.
Qed.

Lemma ports_named_nil c name p :
  ports_named c name = [] → p ∈ cloud_ports c → port_name p ≠ name.
Proof.
  intros H Hp Hname.
  assert (p ∈ ports_named c name) as Hin by (by apply list_elem_of_filter).
  rewrite H in Hin. by apply elem_of_nil in Hin.
Qed.

(** One detach iteration, as a function of the state it runs in. *)
Lemma detach_network_eq node bps changed network c :
  detach_network node bps changed network c =
    match ports_named c (port_name_for (node_name node) (net_name network)) with
    | [] => (Ok changed, c, [])
    | np :: _ =>
        match _find_matching_baremetal_port bps (Some np) with
        | Some _ =>
            (Ok true,
             remove_port (port_id np) (unplug (node_id node) (port_id np) c),
             [DetachVif (node_id node) (port_id np); DeletePort (port_id np)])
        | None => (Ok changed, c, [])
        end
    end.
Proof.
  unfold detach_network, _find_network_port, conn_network_ports, bind, gets.
  destruct (ports_named _ _) as [|np rest]; [done|]. cbn [ret].
  destruct (_find_matching_baremetal_port _ _); done.
Qed.

(** One attach iteration, as a function of the state it runs in. *)
Lemma attach_network_eq node s network c :
  attach_network node s network c =
    let bps := ports_of_node c (node_id node) in
    let '(np, c1, created) := located_or_created node network c in
    match _find_matching_baremetal_port bps (Some np) with
    | Some _ => (Ok (bps, s.2), c1, created)
    | None =>
        match _find_free_baremetal_port bps with
        | None => (Raise (fail_json (no_free_ports_msg node network)), c1, created)
        | Some bp =>
            (Ok (bps, true), plug (node_id node) (port_id np) (bp_id bp) c1,
             created ++ [AttachVif (node_id node) (port_id np) (bp_id bp)])
        end
    end.
Proof.
  unfold attach_network, conn_baremetal_ports, _find_network_port, conn_network_ports,
    _create_network_port, create_port, located_or_created, bind, gets.
  destruct (ports_named _ _) as [|np rest]; cbn [ret].
  - destruct (_find_matching_baremetal_port _ _); [done|].
    destruct (_find_free_baremetal_port _); done.
  - destruct (_find_matching_baremetal_port _ _); [done|].
    destruct (_find_free_baremetal_port _); done.
Qed.

(** The run once the node is resolved and the attached networks are
    found: two loops, one after the other. *)
Lemma run_eq params_node params_networks c node :
  lookup_node c params_node = Some node →
  let bps := ports_of_node c (node_id node) in
  let networks := cloud_networks c in
  let desired := desired_network_objects networks (default [] params_networks) in
  let current := currently_attached c bps networks in
  _get_currently_attached_networks bps networks c = (Ok current, c, []) →
  run params_node params_networks c =
    match for_loop (networks_to_detach desired current) false
            (detach_network node bps) c with
    | (Ok changed, c1, t1) =>
        match for_loop (networks_to_attach desired current) (bps, changed)
                (attach_network node) c1 with
        | (Ok s, c2, t2) => (Ok s.2, c2, t1 ++ t2)
        | (Raise e, c2, t2) => (Raise e, c2, t1 ++ t2)
        end
    | (Raise e, c1, t1) => (Raise e, c1, t1)
    end.
Proof.
  intros Hnode. cbn zeta. intros Hfound.
  unfold run, find_node, conn_baremetal_ports, conn_network_networks,
    exit_json, bind, gets.
  rewrite Hnode. cbn [ret]. rewrite Hfound.
  destruct (for_loop (networks_to_detach _ _) _ _ _) as [[[ch|e] c1] t1]; [|done].
  destruct (for_loop (networks_to_attach _ _) _ _ _) as [[[s|e] c2] t2]; cbn.
  - by rewrite app_nil_r.
  - done.
Qed.

(** The run when the attached networks cannot be found: the exception of
    [find_port] ends it, nothing was done. *)
Lemma run_duplicate params_node params_networks c node vif :
  lookup_node c params_node = Some node →
  _get_currently_attached_networks (ports_of_node c (node_id node)) (cloud_networks c) c
  = (Raise (DuplicateResource vif), c, []) →
  run params_node params_networks c = (Raise (DuplicateResource vif), c, []).
Proof.
  intros Hnode Hfound.
  unfold run, find_node, conn_baremetal_ports, conn_network_networks, bind, gets.
  rewrite Hnode. cbn [ret]. by rewrite Hfound.
Qed.

(** The two ways of a run on a node that resolves. *)
Lemma run_cases params_node params_networks c node :
  lookup_node c params_node = Some node →
  let bps := ports_of_node c (node_id node) in
  let networks := cloud_networks c in
  let desired := desired_network_objects networks (default [] params_networks) in
  let current := currently_attached c bps networks in
  (_get_currently_attached_networks bps networks c = (Ok current, c, []) ∧
   run params_node params_networks c =
     match for_loop (networks_to_detach desired current) false
             (detach_network node bps) c with
     | (Ok changed, c1, t1) =>
         match for_loop (networks_to_attach desired current) (bps, changed)
                 (attach_network node) c1 with
         | (Ok s, c2, t2) => (Ok s.2, c2, t1 ++ t2)
         | (Raise e, c2, t2) => (Raise e, c2, t1 ++ t2)
         end
     | (Raise e, c1, t1) => (Raise e, c1, t1)
     end) ∨
  (∃ bp vif,
     bp ∈ bps ∧ carries vif bp ∧ lookup_port c vif = Raise (DuplicateResource vif) ∧
     _get_currently_attached_networks bps networks c
     = (Raise (DuplicateResource vif), c, []) ∧
     run params_node params_networks c = (Raise (DuplicateResource vif), c, [])).
Proof.
  intros Hnode. cbn zeta.
  destruct (_get_currently_attached_networks_cases (ports_of_node c (node_id node))
              (cloud_networks c) c) as [Hfound|(bp & vif & Hbp & Hcar & Hvif & Hfound)].
  - left. split; [done|]. by apply run_eq.
  - right. exists bp, vif. split_and!; [done..|]. by eapply run_duplicate.
Qed.

(** Splits a goal on a run of a node that resolves: first the run that
    found the attached networks, as its two loops, then the run that
    [find_port] ended. *)
Ltac run_cases_at Hnode :=
  match goal with
  | |- context [run ?pn ?pnw ?c] =>
      destruct (run_cases pn pnw c _ Hnode)
        as [[_ ->]|(? & ? & _ & _ & _ & _ & ->)]; cbn zeta
  end.

Lemma run_not_found params_node params_networks c :
  lookup_node c params_node = None →
  run params_node params_networks c = (Raise (ResourceNotFound params_node), c, []).
Proof.
  intros Hnode. unfold run, find_node, bind. by rewrite Hnode.
Qed.

Lemma detach_network_calls node bps changed network c :
  ∃ changed' c',
    detach_network node bps changed network c =
      (Ok changed', c', (detach_network node bps changed network c).2) ∧
    detach_calls node network (detach_network node bps changed network c).2 ∧
    (changed' = true ↔
     changed = true ∨ Exists is_vif_call (detach_network node bps changed network c).2).
Proof.
  rewrite detach_network_eq.
  destruct (ports_named _ _) as [|np rest] eqn:Hnamed.
  - exists changed, c. split_and!; [done|by left|].
    split; [by left|]. intros [?|H%Exists_nil]; done.
  - assert (port_name np = port_name_for (node_name node) (net_name network)) as Hname.
    { assert (np ∈ ports_named c (port_name_for (node_name node) (net_name network)))
        as Hin by (rewrite Hnamed; left).
      by apply list_elem_of_filter in Hin as [? _]. }
    destruct (_find_matching_baremetal_port _ _).
    + eexists _, _. split_and!; [done|right; by exists np|].
      split; [|done]. intros _. right. by left.
    + exists changed, c. split_and!; [done|by left|].
      split; [by left|]. intros [?|H%Exists_nil]; done.
Qed.

(** The detach loop has no failure of its own (no [fail_json], no lookup
    that raises); its log is the concatenation of the calls made for
    each network of the list, in list order. *)
Lemma detach_loop_calls node bps l changed c :
  ∃ changed' c' ds,
    for_loop l changed (detach_network node bps) c = (Ok changed', c', concat ds) ∧
    Forall2 (detach_calls node) l ds ∧
    (changed' = true ↔ changed = true ∨ Exists is_vif_call (concat ds)).
Proof.
  revert changed c. induction l as [|n l IH]; intros changed c.
  - exists changed, c, []. split_and!; [done|constructor|].
    split; [by left|]. intros [?|H%Exists_nil]; done.
  - destruct (detach_network_calls node bps changed n c)
      as (ch1 & c1 & Hstep & Hcalls & Hch).
    destruct (IH ch1 c1) as (ch2 & c2 & ds & Hloop & Hds & Hch2).
    exists ch2, c2, ((detach_network node bps changed n c).2 :: ds).
    split_and!.
    + rewrite for_loop_cons. rewrite (bind_Ok _ _ _ _ _ _ Hstep).
      by rewrite Hloop.
    + by constructor.
    + cbn [concat]. rewrite Exists_app, Hch2, Hch. tauto.
Qed.

Lemma attach_network_calls node s network c r c' t :
  attach_network node s network c = (r, c', t) →
  attach_calls node network t ∧
  (∀ s', r = Ok s' → (s'.2 = true ↔ s.2 = true ∨ Exists is_vif_call t)).
Proof.
  rewrite attach_network_eq. unfold located_or_created. cbn zeta.
  destruct (ports_named _ _) as [|np rest];
    destruct (_find_matching_baremetal_port _ _) as [m|];
    try destruct (_find_free_baremetal_port _) as [b|];
    intros [= <- <- <-]; (split; [|intros s' [= <-]; cbn [snd app]]).
  all: rewrite ?Exists_cons, ?Exists_nil; cbn [is_vif_call]; try tauto.
  - exists "", "". apply sublist_skip, sublist_cons, sublist_nil.
  - eexists _, _. apply sublist_skip, sublist_skip, sublist_nil.
  - exists "", "". apply sublist_skip, sublist_cons, sublist_nil.
  - exists "", "". apply sublist_cons, sublist_cons, sublist_nil.
  - eexists _, _. apply sublist_cons, sublist_skip, sublist_nil.
  - exists "", "". apply sublist_cons, sublist_cons, sublist_nil.
Qed.

(** The attach loop stops at the first failure; its log is the
    concatenation of the calls made for the networks it got to, in list
    order. *)
Lemma attach_loop_calls node l s c r c' t :
  for_loop l s (attach_network node) c = (r, c', t) →
  ∃ done evs,
    done `prefix_of` l ∧ Forall2 (attach_calls node) done evs ∧ t = concat evs ∧
    (∀ s', r = Ok s' →
       done = l ∧ (s'.2 = true ↔ s.2 = true ∨ Exists is_vif_call t)).
Proof.
  revert s c t. induction l as [|n l IH]; intros s c t.
  - intros [= <- <- <-]. exists [], []. split_and!; [done|constructor|done|].
    intros s' [= <-]. split; [done|]. rewrite Exists_nil. tauto.
  - rewrite for_loop_cons. unfold bind.
    destruct (attach_network node s n c) as [[[s1|e] c1] t1] eqn:Hstep.
    + destruct (for_loop l s1 (attach_network node) c1) as [[r2 c2] t2] eqn:Hloop.
      intros [= <- <- <-].
      destruct (attach_network_calls _ _ _ _ _ _ _ Hstep) as [Hcalls Hch].
      destruct (IH _ _ _ Hloop) as (done & evs & Hpre & Hevs & -> & Hok).
      exists (n :: done), (t1 :: evs). split_and!.
      * by apply prefix_cons.
      * by constructor.
      * done.
      * intros s' ->. destruct (Hok s' eq_refl) as [-> Hch2]. split; [done|].
        cbn [concat]. rewrite Exists_app, Hch2, (Hch s1 eq_refl). tauto.
    + intros [= <- <- <-].
      destruct (attach_network_calls _ _ _ _ _ _ _ Hstep) as [Hcalls _].
      exists [n], [t1]. split_and!.
      * apply prefix_cons, prefix_nil.
      * by repeat constructor.
      * cbn. by rewrite app_nil_r.
      * done.
Qed.

(** Each detach iteration is a [detach_step]. *)
Lemma detach_network_step node bps changed network c :
  ∃ changed' c',
    detach_network node bps changed network c =
      (Ok changed', c', (detach_network node bps changed network c).2) ∧
    detach_step node bps network c (detach_network node bps changed network c).2 c'.
Proof.
  rewrite detach_network_eq. unfold detach_step. cbn zeta.
  destruct (ports_named _ _) as [|np rest] eqn:Hnamed.
  - exists changed, c. split; [done|]. right. split_and!; [by left|done..].
  - destruct (_find_matching_baremetal_port _ _) as [bp|] eqn:Hm.
    + apply _find_matching_baremetal_port_Some in Hm as [Hbp Hcar].
      eexists _, _. split; [done|]. left. by exists np, rest, bp.
    + exists changed, c. split; [done|]. right. split_and!; [|done..].
      right. exists np, rest. split; [done|].
      by apply _find_matching_baremetal_port_None.
Qed.

Lemma detach_loop_steps node bps l changed c :
  ∃ changed' c' groups,
    for_loop l changed (detach_network node bps) c = (Ok changed', c', concat groups) ∧
    iterations (detach_step node bps) l c groups c'.
Proof.
  revert changed c. induction l as [|n l IH]; intros changed c.
  - exists changed, c, []. split; [done|constructor].
  - destruct (detach_network_step node bps changed n c) as (ch1 & c1 & Hstep & Hcalls).
    destruct (IH ch1 c1) as (ch2 & c2 & groups & Hloop & Hgroups).
    exists ch2, c2, ((detach_network node bps changed n c).2 :: groups). split.
    + rewrite for_loop_cons. rewrite (bind_Ok _ _ _ _ _ _ Hstep). by rewrite Hloop.
    + by econstructor.
Qed.

(** Each attach iteration is an [attach_step], the one that fails too. *)
Lemma attach_network_step node s network c r c' t :
  attach_network node s network c = (r, c', t) → attach_step node network c t c'.
Proof.
  rewrite attach_network_eq. unfold attach_step. cbn zeta.
  destruct (located_or_created node network c) as [[np c1] created]. cbn [fst snd].
  destruct (_find_matching_baremetal_port _ _) as [bp|] eqn:Hm.
  - apply _find_matching_baremetal_port_Some in Hm as [Hbp Hcar].
    intros [= <- <- <-]. left. split; [by exists bp|done].
  - pose proof (proj1 (_find_matching_baremetal_port_None _ _) Hm) as Hnone.
    destruct (_find_free_baremetal_port _) as [bp|] eqn:Hfree; intros [= <- <- <-].
    + apply _find_free_baremetal_port_Some in Hfree as (pre & post & Hsplit & Hpre & Hbp).
      right. left. split; [done|]. by exists pre, bp, post.
    + right. right. split_and!; [done| |done..].
      by apply _find_free_baremetal_port_None.
Qed.

Lemma attach_loop_steps node l s c r c' t :
  for_loop l s (attach_network node) c = (r, c', t) →
  ∃ reached groups,
    reached `prefix_of` l ∧ iterations (attach_step node) reached c groups c' ∧
    t = concat groups ∧ (∀ s', r = Ok s' → reached = l).
Proof.
  revert s c t. induction l as [|n l IH]; intros s c t.
  - intros [= <- <- <-]. exists [], []. split_and!; [done|constructor|done..].
  - rewrite for_loop_cons. unfold bind.
    destruct (attach_network node s n c) as [[[s1|e] c1] t1] eqn:Hstep.
    + destruct (for_loop l s1 (attach_network node) c1) as [[r2 c2] t2] eqn:Hloop.
      intros [= <- <- <-]. apply attach_network_step in Hstep.
      destruct (IH _ _ _ Hloop) as (reached & groups & Hpre & Hgroups & -> & Hok).
      exists (n :: reached), (t1 :: groups). split_and!.
      * by apply prefix_cons.
      * by econstructor.
      * done.
      * intros s' ->. by rewrite (Hok s' eq_refl).
    + intros [= <- <- <-]. apply attach_network_step in Hstep.
      exists [n], [t1]. split_and!.
      * apply prefix_cons, prefix_nil.
      * econstructor; [done|constructor].
      * cbn. by rewrite app_nil_r.
      * done.
Qed.

Lemma detach_step_calls node bps network c evs c' :
  detach_step node bps network c evs c' → detach_calls node network evs.
Proof.
  intros [(np & rest & bp & Hnamed & _ & _ & -> & _)|(_ & -> & _)]; [|by left].
  right. exists np. split; [|done]. by eapply ports_named_head.
Qed.

Lemma attach_step_calls node network c evs c' :
  attach_step node network c evs c' → attach_calls node network evs.
Proof.
  unfold attach_step, located_or_created. cbn zeta.
  destruct (ports_named c _) as [|np rest]; cbn [fst snd].
  - intros [(_ & -> & _)|[(_ & pre & bp & post & _ & _ & _ & -> & _)|(_ & _ & -> & _)]].
    + exists "", "". apply sublist_skip, sublist_cons, sublist_nil.
    + eexists _, _. apply sublist_skip, sublist_skip, sublist_nil.
    + exists "", "". apply sublist_skip, sublist_cons, sublist_nil.
  - intros [(_ & -> & _)|[(_ & pre & bp & post & _ & _ & _ & -> & _)|(_ & _ & -> & _)]].
    + exists "", "". apply sublist_cons, sublist_cons, sublist_nil.
    + eexists _, _. apply sublist_cons, sublist_skip, sublist_nil.
    + exists "", "". apply sublist_cons, sublist_cons, sublist_nil.
Qed.

Lemma iterations_Forall2 {A} (step : A → Cloud → list Event → Cloud → Prop)
    (P : A → list Event → Prop) l c groups c' :
  (∀ x c evs c', step x c evs c' → P x evs) →
  iterations step l c groups c' → Forall2 P l groups.
Proof.
  intros Hstep. induction 1; constructor; [by eapply Hstep|done].
Qed.

Lemma iterations_nil_inv {A} (step : A → Cloud → list Event → Cloud → Prop)
    c groups c' :
  iterations step [] c groups c' → groups = [] ∧ c' = c.
Proof. by inversion 1. Qed.

Lemma iterations_cons_inv {A} (step : A → Cloud → list Event → Cloud → Prop)
    x l c groups c' :
  iterations step (x :: l) c groups c' →
  ∃ evs c1 rest,
    groups = evs :: rest ∧ step x c evs c1 ∧ iterations step l c1 rest c'.
Proof. inversion 1; subst. by eexists _, _, _. Qed.

(** A [detach_step] and an [attach_step] leave no choice: the calls and
    the state are those of the iteration. *)
Lemma detach_step_inv node bps changed network c evs c' :
  detach_step node bps network c evs c' →
  evs = log_of (detach_network node bps changed network c) ∧
  c' = cloud_of (detach_network node bps changed network c).
Proof.
  rewrite detach_network_eq. unfold detach_step. cbn zeta.
  intros [(np & rest & bp & -> & Hbp & Hcar & -> & ->)
         |([->|(np & rest & -> & Hnone)] & -> & ->)].
  - destruct (_find_matching_baremetal_port _ _) eqn:Hm; [done|].
    eapply _find_matching_baremetal_port_None in Hm; [|done]. done.
  - done.
  - by apply _find_matching_baremetal_port_None in Hnone as ->.
Qed.

Lemma attach_step_inv node s network c evs c' :
  attach_step node network c evs c' →
  evs = log_of (attach_network node s network c) ∧
  c' = cloud_of (attach_network node s network c).
Proof.
  rewrite attach_network_eq. unfold attach_step. cbn zeta.
  destruct (located_or_created node network c) as [[np c1] created]. cbn [fst snd].
  intros [((bp & Hbp & Hcar) & -> & ->)
         |[(Hnone & pre & bp & post & Hsplit & Hpre & Hfree & -> & ->)
          |(Hnone & Hfull & -> & ->)]].
  - destruct (_find_matching_baremetal_port _ _) eqn:Hm; [done|].
    eapply _find_matching_baremetal_port_None in Hm; [|done]. done.
  - apply _find_matching_baremetal_port_None in Hnone as ->.
    assert (_find_free_baremetal_port (ports_of_node c (node_id node)) = Some bp) as ->
      by (apply _find_free_baremetal_port_Some; by exists pre, post).
    done.
  - apply _find_matching_baremetal_port_None in Hnone as ->.
    by apply _find_free_baremetal_port_None in Hfull as ->.
Qed.

Lemma detach_calls_phase node network evs :
  detach_calls node network evs → Forall (λ ev, ¬ is_attach_phase_call ev) evs.
Proof.
  intros [->|(np & _ & ->)]; repeat constructor; by intros [].
Qed.

Lemma attach_calls_phase node network evs :
  attach_calls node network evs → Forall is_attach_phase_call evs.
Proof.
  intros (vif & bp & Hsub). apply Forall_forall. intros ev Hev.
  pose proof (elem_of_sublist _ _ _ Hev Hsub) as Hin.
  apply elem_of_cons in Hin as [->|Hin]; [done|].
  apply elem_of_cons in Hin as [->|Hin]; [done|].
  by apply elem_of_nil in Hin.
Qed.

Lemma Forall_concat_Forall2 {A B} (P : A → list B → Prop) (Q : B → Prop) l ks :
  (∀ x k, P x k → Forall Q k) → Forall2 P l ks → Forall Q (concat ks).
Proof.
  intros HPQ. induction 1 as [|x k l ks Hxk _ IH]; cbn; [constructor|].
  apply Forall_app. split; [by eapply HPQ|done].
Qed.

(** ** Properties that hold in every state of the cloud *)

(** C5. When the node reference resolves to no node, the run ends with
    the SDK's not-found failure, the cloud is left as it was and no
    state-mutating call (attach, detach, create, delete) has been
    issued. *)
Theorem not_found_before_any_mutation params_node params_networks c :
  lookup_node c params_node = None →
  run params_node params_networks c =
    (Raise (ResourceNotFound params_node), c, []).
Proof. apply run_not_found. Qed.

(** C6. Every run issues its calls in two phases.  First come the calls of
    the detach iterations, one group per network of [networks_to_detach]
    in the order of that list: the group of a network is the VIF detach
    and the deletion of the first port that bears its name in the state
    the iterations before it left, or is empty.  Then come the calls of
    the attach iterations, one group per network of [networks_to_attach]
    in the order of that list, up to the iteration that fails if one
    does: the group of a network is the creation of its port, if none
    bore the name, and the attach of that port's VIF to the first free
    baremetal port of the node, if none carried it, again in the state
    left by the iterations before.  The two lists keep the order in
    which the networks were discovered: the attached ones by walking the
    node's ports, the desired ones by walking the network list. *)
Theorem detach_phase_precedes_attach_phase params_node params_networks c :
  ∃ detached attached,
    log_of (run params_node params_networks c) = concat detached ++ concat attached ∧
    Forall (λ ev, ¬ is_attach_phase_call ev) (concat detached) ∧
    Forall is_attach_phase_call (concat attached) ∧
    ∀ node current,
      lookup_node c params_node = Some node →
      let bps := ports_of_node c (node_id node) in
      let networks := cloud_networks c in
      let desired := desired_network_objects networks (default [] params_networks) in
      _get_currently_attached_networks bps networks c = (Ok current, c, []) →
      let to_detach := networks_to_detach desired current in
      let to_attach := networks_to_attach desired current in
      ∃ reached c1,
        iterations (detach_step node bps) to_detach c detached c1 ∧
        reached `prefix_of` to_attach ∧
        iterations (attach_step node) reached c1 attached
          (cloud_of (run params_node params_networks c)) ∧
        (∀ changed, result_of (run params_node params_networks c) = Ok changed →
                    reached = to_attach) ∧
        current = omap (attached_network c networks) bps ∧
        to_detach `sublist_of` current ∧
        to_attach `sublist_of` networks.
Proof.
  destruct (lookup_node c params_node) as [node|] eqn:Hnode.
  2:{ exists [], []. rewrite (run_not_found _ _ _ Hnode).
      split_and!; [done|constructor|constructor|done]. }
  destruct (run_cases _ params_networks _ _ Hnode)
    as [[Hfound Hrun]|(bp & vif & _ & _ & _ & Hfound & Hrun)]; cbn zeta in *.
  2:{ exists [], []. rewrite Hrun.
      split_and!; [done|constructor|constructor|].
      intros node' current [= <-]. cbn zeta. rewrite Hfound. discriminate. }
  rewrite Hrun.
  set (bps := ports_of_node c (node_id node)) in *.
  set (desired := desired_network_objects _ _).
  set (current := currently_attached _ _ _) in *.
  destruct (detach_loop_steps node bps (networks_to_detach desired current) false c)
    as (ch1 & c1 & ds & Hdet & Hds).
  rewrite Hdet.
  destruct (for_loop (networks_to_attach desired current) (bps, ch1)
              (attach_network node) c1) as [[r c2] t2] eqn:Hatt.
  destruct (attach_loop_steps _ _ _ _ _ _ _ Hatt)
    as (reached & groups & Hpre & Hgroups & -> & Hok).
  exists ds, groups. split_and!.
  - by destruct r.
  - eapply Forall_concat_Forall2; [apply detach_calls_phase|].
    eapply iterations_Forall2; [|exact Hds]. apply detach_step_calls.
  - eapply Forall_concat_Forall2; [apply attach_calls_phase|].
    eapply iterations_Forall2; [|exact Hgroups]. apply attach_step_calls.
  - intros node' current' [= <-]. cbn zeta. fold bps. rewrite Hfound.
    intros [= <-]. exists reached, c1. split_and!; [done|done| | |done| |].
    + by destruct r.
    + intros changed Hres. destruct r as [s|e]; [|done]. by apply (Hok s).
    + apply sublist_filter.
    + etrans; apply sublist_filter.
Qed.

(** C10, amended. A run that ends normally reports [changed = true] exactly when
    it issued at least one VIF attach or VIF detach call.  In
    particular the iterations that skip leave the flag as they found it:
    an attach iteration whose port is already carried by a baremetal
    port, and a detach iteration that finds no port under the expected
    name or no baremetal port carrying it. *)
Theorem changed_iff_vif_call params_node params_networks c :
  (∀ changed,
     result_of (run params_node params_networks c) = Ok changed →
     (changed = true ↔
      Exists is_vif_call (log_of (run params_node params_networks c)))) ∧
  (∀ node s network c0 np rest m,
     ports_named c0 (port_name_for (node_name node) (net_name network)) = np :: rest →
     _find_matching_baremetal_port (ports_of_node c0 (node_id node)) (Some np) = Some m →
     attach_network node s network c0 =
       (Ok (ports_of_node c0 (node_id node), s.2), c0, [])) ∧
  (∀ node bps changed network c0,
     ports_named c0 (port_name_for (node_name node) (net_name network)) = [] →
     detach_network node bps changed network c0 = (Ok changed, c0, [])) ∧
  (∀ node bps changed network c0 np rest,
     ports_named c0 (port_name_for (node_name node) (net_name network)) = np :: rest →
     _find_matching_baremetal_port bps (Some np) = None →
     detach_network node bps changed network c0 = (Ok changed, c0, [])).
Proof.
  split_and!.
  - intros changed. destruct (lookup_node c params_node) as [node|] eqn:Hnode.
    2:{ by rewrite (run_not_found _ _ _ Hnode). }
    destruct (run_cases _ params_networks _ _ Hnode)
      as [[_ ->]|(bp & vif & _ & _ & _ & _ & ->)]; cbn zeta; [|done].
    set (bps := ports_of_node c (node_id node)).
    set (desired := desired_network_objects _ _).
    set (current := currently_attached _ _ _).
    destruct (detach_loop_calls node bps (networks_to_detach desired current) false c)
      as (ch1 & c1 & ds & Hdet & _ & Hch1).
    rewrite Hdet.
    destruct (for_loop (networks_to_attach desired current) (bps, ch1)
                (attach_network node) c1) as [[[s|e] c2] t2] eqn:Hatt; [|done].
    destruct (attach_loop_calls _ _ _ _ _ _ _ Hatt)
      as (reached & evs & _ & _ & _ & Hok).
    destruct (Hok s eq_refl) as [_ Hch2].
    unfold result_of, log_of. cbn. intros [= <-].
    rewrite Exists_app, Hch2. cbn. rewrite Hch1. intuition congruence.
  - intros node s network c0 np rest m Hnamed Hm.
    rewrite attach_network_eq. unfold located_or_created. cbn zeta.
    by rewrite Hnamed, Hm.
  - intros node bps changed network c0 Hnamed.
    rewrite detach_network_eq. by rewrite Hnamed.
  - intros node bps changed network c0 np rest Hnamed Hm.
    rewrite detach_network_eq. by rewrite Hnamed, Hm.
Qed.

(** A failing attach loop failed in one iteration, reached after the
    iterations before it had succeeded. *)
Lemma attach_loop_Raise node l s c e c' t :
  for_loop l s (attach_network node) c = (Raise e, c', t) →
  ∃ reached network rest s1 c1 t1 t2,
    l = reached ++ network :: rest ∧
    for_loop reached s (attach_network node) c = (Ok s1, c1, t1) ∧
    attach_network node s1 network c1 = (Raise e, c', t2) ∧
    t = t1 ++ t2.
Proof.
  revert s c t. induction l as [|n l IH]; intros s c t; [done|].
  rewrite for_loop_cons. unfold bind.
  destruct (attach_network node s n c) as [[[s1|e1] c1] t1] eqn:Hstep.
  - destruct (for_loop l s1 (attach_network node) c1) as [[r2 c2] t2] eqn:Hloop.
    intros [= -> -> <-].
    destruct (IH _ _ _ Hloop) as (reached & m & rest & s2 & c3 & t3 & t4 & -> & Hr & Hm & ->).
    exists (n :: reached), m, rest, s2, c3, (t1 ++ t3), t4. split_and!; [done| |done|].
    + rewrite for_loop_cons. rewrite (bind_Ok _ _ _ _ _ _ Hstep). by rewrite Hr.
    + by rewrite app_assoc.
  - intros [= <- <- <-]. by exists [], n, l, s, c, [], t1.
Qed.

(** A port that contributes nothing and raises nothing can be left out
    of the walk. *)
Lemma collect_loop_skip networks pre bp post c :
  (∀ acc, collect_attached_network networks acc bp c = (Ok acc, c, [])) →
  _get_currently_attached_networks (pre ++ bp :: post) networks c
  = _get_currently_attached_networks (pre ++ post) networks c.
Proof.
  intros Hskip. unfold _get_currently_attached_networks.
  rewrite !for_loop_bind. unfold bind.
  destruct (collect_loop networks pre [] c)
    as [->|(pre' & b & post' & vif & _ & _ & _ & _ & ->)]; [|done].
  cbn [for_loop]. unfold bind. rewrite Hskip.
  by destruct (for_loop post _ _ c) as [[r2 c2] t2].
Qed.

(** C8. Stale references are skipped, never raised, and nothing is
    mutated for them: (1) a baremetal port whose VIF id resolves to no
    port and (2) one whose port belongs to a network that is not in the
    network list contribute nothing to the attached networks and raise
    nothing, the walk over the ports is the walk without them; that walk
    neither changes the cloud nor issues a call, and it returns whenever
    [find_port] answers for every VIF, be it with no port; (3) a network
    to detach for which no port bears the expected name and (4) one
    whose port is carried by no baremetal port leave the cloud as it is,
    with no call issued, so the orphaned port of (4) is still there. *)
Theorem stale_state_is_skipped :
  (∀ c networks pre bp post vif,
     internal_info bp !! tenant_vif_port_id = Some vif →
     lookup_port c vif = Ok None →
     _get_currently_attached_networks (pre ++ bp :: post) networks c =
     _get_currently_attached_networks (pre ++ post) networks c ∧
     currently_attached c (pre ++ bp :: post) networks =
     currently_attached c (pre ++ post) networks) ∧
  (∀ c networks pre bp post vif np,
     internal_info bp !! tenant_vif_port_id = Some vif →
     lookup_port c vif = Ok (Some np) →
     (∀ net, net ∈ networks → net_id net ≠ port_network_id np) →
     _get_currently_attached_networks (pre ++ bp :: post) networks c =
     _get_currently_attached_networks (pre ++ post) networks c ∧
     currently_attached c (pre ++ bp :: post) networks =
     currently_attached c (pre ++ post) networks) ∧
  (∀ c bps networks,
     cloud_of (_get_currently_attached_networks bps networks c) = c ∧
     log_of (_get_currently_attached_networks bps networks c) = [] ∧
     ((∀ bp vif, bp ∈ bps → carries vif bp → ∃ found, lookup_port c vif = Ok found) →
      _get_currently_attached_networks bps networks c =
        (Ok (currently_attached c bps networks), c, []))) ∧
  (∀ node bps changed network c,
     ports_named c (port_name_for (node_name node) (net_name network)) = [] →
     detach_network node bps changed network c = (Ok changed, c, [])) ∧
  (∀ node bps changed network c np rest,
     ports_named c (port_name_for (node_name node) (net_name network)) = np :: rest →
     (∀ bp, bp ∈ bps → ¬ carries (port_id np) bp) →
     detach_network node bps changed network c = (Ok changed, c, []) ∧
     np ∈ cloud_ports c).
Proof.
  split_and!.
  - intros c networks pre bp post vif Hvif Hport.
    assert (attached_network c networks bp = None) as Hnone
      by (unfold attached_network; by rewrite Hvif, Hport).
    split.
    + apply collect_loop_skip. intros acc.
      rewrite collect_attached_network_eq, Hvif, Hport, Hnone. cbn.
      by rewrite app_nil_r.
    + unfold currently_attached. rewrite !omap_app. cbn. by rewrite Hnone.
  - intros c networks pre bp post vif np Hvif Hport Hstale.
    assert (attached_network c networks bp = None) as Hnone.
    { unfold attached_network. rewrite Hvif, Hport. unfold first_network.
      destruct (filter _ networks) as [|net l] eqn:Hf; [done|].
      assert (net ∈ filter (λ net, net_id net = port_network_id np) networks) as Hin
        by (rewrite Hf; left).
      apply list_elem_of_filter in Hin as [Hid Hin]. by destruct (Hstale net Hin). }
    split.
    + apply collect_loop_skip. intros acc.
      rewrite collect_attached_network_eq, Hvif, Hport, Hnone. cbn.
      by rewrite app_nil_r.
    + unfold currently_attached. rewrite !omap_app. cbn. by rewrite Hnone.
  - intros c bps networks. split_and!.
    + by destruct (_get_currently_attached_networks_cases bps networks c)
        as [->|(bp & vif & _ & _ & _ & ->)].
    + by destruct (_get_currently_attached_networks_cases bps networks c)
        as [->|(bp & vif & _ & _ & _ & ->)].
    + apply _get_currently_attached_networks_Ok.
  - intros node bps changed network c Hnamed.
    rewrite detach_network_eq. by rewrite Hnamed.
  - intros node bps changed network c np rest Hnamed Hnone. split.
    + rewrite detach_network_eq. rewrite Hnamed.
      by apply _find_matching_baremetal_port_None in Hnone as ->.
    + assert (np ∈ ports_named c (port_name_for (node_name node) (net_name network)))
        as Hin by (rewrite Hnamed; left).
      by apply list_elem_of_filter in Hin as [_ ?].
Qed.

(** C7. An attach iteration works on the node's ports as they are when
    it starts, whatever list the previous iteration left in
    [baremetal_ports], and on the port named ["<node-name>-<network-name>"]:
    the node's name, a hyphen, the network's name.  That port is the
    first one the cloud lists under that name or, when there is none, a
    new port of that name on the network.  If a baremetal port already
    carries that port, no VIF is attached and the iteration ends there:
    the cloud is as it was when the port existed already (and always is
    when the id of a new port is carried by no baremetal port of the
    node).  Otherwise the VIF is attached to the first baremetal port,
    in fetch order, that lacks the key. *)
Theorem attach_iteration_mechanics node s network c :
  let bps := ports_of_node c (node_id node) in
  let name := node_name node +:+ "-" +:+ net_name network in
  let np := (located_or_created node network c).1.1 in
  let c1 := (located_or_created node network c).1.2 in
  let created := (located_or_created node network c).2 in
  (∀ stale, attach_network node (stale, s.2) network c = attach_network node s network c) ∧
  port_name np = name ∧ np ∈ cloud_ports c1 ∧
  (head (filter (λ p, port_name p = name) (cloud_ports c)) = Some np ∧
   c1 = c ∧ created = [] ∨
   filter (λ p, port_name p = name) (cloud_ports c) = [] ∧
   np = mkPort (new_port_id c) name (net_id network) "baremetal:none" ∧
   c1 = add_port np c ∧
   created = [CreatePort name (net_id network) "baremetal:none"]) ∧
  (∀ bp, bp ∈ bps → carries (port_id np) bp →
     attach_network node s network c = (Ok (bps, s.2), c1, created) ∧
     (np ∈ cloud_ports c → c1 = c ∧ created = []) ∧
     ((∀ b, b ∈ bps → ¬ carries (new_port_id c) b) → c1 = c ∧ created = [])) ∧
  (∀ pre bp post,
     (∀ b, b ∈ bps → ¬ carries (port_id np) b) →
     bps = pre ++ bp :: post → Forall (λ b, ¬ is_free b) pre → is_free bp →
     attach_network node s network c =
       (Ok (bps, true), plug (node_id node) (port_id np) (bp_id bp) c1,
        created ++ [AttachVif (node_id node) (port_id np) (bp_id bp)])).
Proof.
  cbn zeta. split; [intros stale; by rewrite !attach_network_eq|].
  rewrite attach_network_eq. unfold located_or_created. cbn zeta.
  change (filter (λ p, port_name p = node_name node +:+ "-" +:+ net_name network)
            (cloud_ports c))
    with (ports_named c (port_name_for (node_name node) (net_name network))).
  change (node_name node +:+ "-" +:+ net_name network)
    with (port_name_for (node_name node) (net_name network)).
  destruct (ports_named c _) as [|np rest] eqn:Hnamed; cbn [fst snd].
  - split_and!.
    + done.
    + cbn. apply elem_of_app. right. left.
    + right. done.
    + intros bp Hbp Hcar.
      destruct (_find_matching_baremetal_port _ _) as [m|] eqn:Hm.
      * split_and!; [done| |].
        -- intros Hin. exfalso.
           assert (mkPort (new_port_id c)
                     (port_name_for (node_name node) (net_name network))
                     (net_id network) "baremetal:none"
                   ∈ ports_named c (port_name_for (node_name node) (net_name network)))
             as Hin' by (by apply list_elem_of_filter).
           rewrite Hnamed in Hin'. by apply elem_of_nil in Hin'.
        -- intros Hfresh. by destruct (Hfresh bp Hbp).
      * exfalso. eapply _find_matching_baremetal_port_None in Hm; [|done]. done.
    + intros pre bp post Hnone Hbps Hpre Hfree.
      apply _find_matching_baremetal_port_None in Hnone as ->.
      assert (_find_free_baremetal_port (ports_of_node c (node_id node)) = Some bp)
        as -> by (apply _find_free_baremetal_port_Some; by exists pre, post).
      done.
  - assert (np ∈ ports_named c (port_name_for (node_name node) (net_name network)))
      as Hin by (rewrite Hnamed; left).
    apply list_elem_of_filter in Hin as [Hname Hin].
    split_and!.
    + done.
    + done.
    + by left.
    + intros bp Hbp Hcar.
      destruct (_find_matching_baremetal_port _ _) as [m|] eqn:Hm; [done|].
      exfalso. eapply _find_matching_baremetal_port_None in Hm; [|done]. done.
    + intros pre bp post Hnone Hbps Hpre Hfree.
      apply _find_matching_baremetal_port_None in Hnone as ->.
      assert (_find_free_baremetal_port (ports_of_node c (node_id node)) = Some bp)
        as -> by (apply _find_free_baremetal_port_Some; by exists pre, post).
      done.
Qed.

(** C4. Take a run that found the attached networks, whose detach phase
    is over and whose attach phase has dealt with the networks of
    [reached]; the next network's port, found or created, is carried by
    no baremetal port of the node, and none of them is free.  Then the
    run fails with the message that gives the node (its id) and the
    network (its name); the networks of [rest] are not looked at; no
    [changed] is reported, the result being the failure; and the state
    it ends in is the one reached by the earlier detachments and
    attachments, with at most the port just created added: nothing is
    undone. *)
Theorem port_exhaustion_is_a_hard_stop params_node params_networks c node current :
  lookup_node c params_node = Some node →
  let bps := ports_of_node c (node_id node) in
  let networks := cloud_networks c in
  let desired := desired_network_objects networks (default [] params_networks) in
  _get_currently_attached_networks bps networks c = (Ok current, c, []) →
  ∀ changed0 c0 t0 reached network rest s1 c1 t1,
    for_loop (networks_to_detach desired current) false
      (detach_network node bps) c = (Ok changed0, c0, t0) →
    networks_to_attach desired current = reached ++ network :: rest →
    for_loop reached (bps, changed0) (attach_network node) c0 = (Ok s1, c1, t1) →
    let np := (located_or_created node network c1).1.1 in
    let c2 := (located_or_created node network c1).1.2 in
    let created := (located_or_created node network c1).2 in
    (∀ bp, bp ∈ ports_of_node c1 (node_id node) → ¬ carries (port_id np) bp) →
    (∀ bp, bp ∈ ports_of_node c1 (node_id node) → ¬ is_free bp) →
    run params_node params_networks c =
      (Raise (fail_json (no_free_ports_msg node network)), c2, t0 ++ t1 ++ created) ∧
    no_free_ports_msg node network =
      "Node " +:+ node_id node +:+
      " has no free ports                     for network " +:+ net_name network ∧
    cloud_baremetal_ports c2 = cloud_baremetal_ports c1 ∧
    (∀ p, p ∈ cloud_ports c1 → p ∈ cloud_ports c2) ∧
    Forall (λ ev, ¬ is_vif_call ev) created.
Proof.
  intros Hnode. cbn zeta. intros Hfound.
  intros changed0 c0 t0 reached network rest s1 c1 t1 Hdet Hsplit Hatt Hnone Hfull.
  split_and!.
  - destruct (_get_currently_attached_networks_inv _ _ _ _ _ _ Hfound) as (-> & _).
    rewrite (run_eq _ _ _ _ Hnode Hfound). rewrite Hdet, Hsplit.
    rewrite (for_loop_app _ _ _ _ _ _ _ _ Hatt).
    rewrite for_loop_cons. unfold bind. rewrite attach_network_eq. cbn zeta.
    destruct (located_or_created node network c1) as [[np c2] created].
    cbn [fst snd] in *.
    apply _find_matching_baremetal_port_None in Hnone as ->.
    assert (_find_free_baremetal_port (ports_of_node c1 (node_id node)) = None) as ->.
    { apply _find_free_baremetal_port_None, Forall_forall. apply Hfull. }
    done.
  - done.
  - unfold located_or_created. by destruct (ports_named c1 _).
  - intros p Hp. unfold located_or_created. destruct (ports_named c1 _); cbn; [|done].
    apply elem_of_app. by left.
  - unfold located_or_created.
    destruct (ports_named c1 _); cbn; repeat constructor. by intros [].
Qed.

(** C9. A run on a node that resolves fails in one of two ways.  Either
    [find_port] refused a VIF while the attached networks were looked
    for, and nothing was done.  Or the run failed in an attach
    iteration, for want of a free port, after the attached networks had
    been found and the detach loop and the iterations before it had
    succeeded.  When that iteration found no port under the expected
    name, the state the run ends in is the state the iteration started
    in plus the port it created, the creation is the last call of the
    log, and no baremetal port of the node carries that port: it was
    created before the free-port check, and is neither attached nor
    deleted.  When it found one, the run ends in the state the iteration
    started in. *)
Theorem exhaustion_leaves_created_port params_node params_networks c node e c' t :
  lookup_node c params_node = Some node →
  run params_node params_networks c = (Raise e, c', t) →
  let bps := ports_of_node c (node_id node) in
  let networks := cloud_networks c in
  let desired := desired_network_objects networks (default [] params_networks) in
  let current := currently_attached c bps networks in
  (∃ vif, e = DuplicateResource vif ∧ c' = c ∧ t = [] ∧
          _get_currently_attached_networks bps networks c
          = (Raise (DuplicateResource vif), c, [])) ∨
  ∃ changed0 c0 t0 reached network rest s1 c1 t1,
    _get_currently_attached_networks bps networks c = (Ok current, c, []) ∧
    for_loop (networks_to_detach desired current) false
      (detach_network node bps) c = (Ok changed0, c0, t0) ∧
    networks_to_attach desired current = reached ++ network :: rest ∧
    for_loop reached (bps, changed0) (attach_network node) c0 = (Ok s1, c1, t1) ∧
    e = fail_json (no_free_ports_msg node network) ∧
    (ports_named c1 (port_name_for (node_name node) (net_name network)) = [] →
     let np := mkPort (new_port_id c1)
                 (port_name_for (node_name node) (net_name network))
                 (net_id network) "baremetal:none" in
     c' = add_port np c1 ∧
     t = t0 ++ t1 ++ [CreatePort (port_name np) (net_id network) "baremetal:none"] ∧
     np ∈ cloud_ports c' ∧
     (∀ bp, bp ∈ ports_of_node c' (node_id node) → ¬ carries (port_id np) bp)) ∧
    (ports_named c1 (port_name_for (node_name node) (net_name network)) ≠ [] →
     c' = c1 ∧ t = t0 ++ t1).
Proof.
  intros Hnode.
  destruct (run_cases _ params_networks _ _ Hnode)
    as [[Hfound ->]|(bp & vif & _ & _ & _ & Hfound & ->)]; cbn zeta in *.
  2:{ intros [= <- <- <-]. left. by exists vif. }
  set (bps := ports_of_node c (node_id node)) in *.
  set (desired := desired_network_objects _ _).
  set (current := currently_attached _ _ _) in *.
  destruct (detach_loop_calls node bps (networks_to_detach desired current) false c)
    as (ch1 & c0 & ds & Hdet & _ & _).
  rewrite Hdet.
  destruct (for_loop (networks_to_attach desired current) (bps, ch1)
              (attach_network node) c0) as [[[s|e2] c2] t2] eqn:Hatt; [done|].
  intros [= -> -> <-]. right.
  destruct (attach_loop_Raise _ _ _ _ _ _ _ Hatt)
    as (reached & network & rest & s1 & c1 & t1 & t3 & Hsplit & Hreached & Hstep & ->).
  exists ch1, c0, (concat ds), reached, network, rest, s1, c1, t1.
  revert Hstep. rewrite attach_network_eq. unfold located_or_created. cbn zeta.
  destruct (ports_named c1 _) as [|np rest'] eqn:Hnamed.
  - destruct (_find_matching_baremetal_port _ _) eqn:Hm; [done|].
    destruct (_find_free_baremetal_port _); [done|].
    intros [= <- <- <-]. split_and!; [done..| |done].
    intros _. cbn zeta. split_and!.
    + done.
    + done.
    + cbn. apply elem_of_app. right. left.
    + by apply _find_matching_baremetal_port_None.
  - destruct (_find_matching_baremetal_port _ _) eqn:Hm; [done|].
    destruct (_find_free_baremetal_port _); [done|].
    intros [= <- <- <-]. split_and!; [done..| |].
    + done.
    + intros _. by rewrite app_nil_r.
Qed.

(** ** Lemmas on states that follow the naming convention *)

Lemma NoDup_fmap_eq {A B} (f : A → B) (l : list A) x y :
  NoDup (f <$> l) → x ∈ l → y ∈ l → f x = f y → x = y.
Proof.
  induction l as [|a l IH]; cbn; [by intros _ ?%elem_of_nil|].
  intros [Ha Hl]%NoDup_cons [->|Hx]%elem_of_cons [->|Hy]%elem_of_cons Hxy.
  - done.
  - destruct Ha. rewrite Hxy. by apply list_elem_of_fmap_2.
  - destruct Ha. rewrite <- Hxy. by apply list_elem_of_fmap_2.
  - by apply IH.
Qed.

Lemma append_inj (s a b : string) : s +:+ a = s +:+ b → a = b.
Proof.
  induction s as [|ch s IH].
  - change ("" +:+ a) with a. by change ("" +:+ b) with b.
  - change (String ch s +:+ a) with (String ch (s +:+ a)).
    change (String ch s +:+ b) with (String ch (s +:+ b)).
    intros [= H]. by apply IH.
Qed.

Lemma port_name_for_inj node_name a b :
  port_name_for node_name a = port_name_for node_name b → a = b.
Proof.
  unfold port_name_for. intros H. by do 2 apply append_inj in H.
Qed.

Lemma filter_fmap_preserve {A} (P : A → Prop) `{!∀ x, Decision (P x)}
    (f : A → A) (l : list A) :
  (∀ x, P (f x) ↔ P x) → filter P (f <$> l) = f <$> filter P l.
Proof.
  intros Hf. induction l as [|a l IH]; [done|]. cbn [fmap list_fmap].
  rewrite !filter_cons. destruct (decide (P (f a))), (decide (P a)); cbn.
  - by rewrite IH.
  - by destruct (Hf a) as [? _]; tauto.
  - by destruct (Hf a) as [_ ?]; tauto.
  - done.
Qed.

Lemma ports_of_node_unplug c nid vif node :
  ports_of_node (unplug nid vif c) node = clear_vif nid vif <$> ports_of_node c node.
Proof.
  unfold ports_of_node. cbn. apply filter_fmap_preserve.
  intros bp. unfold clear_vif. by case_decide.
Qed.

Lemma ports_of_node_plug c nid vif port node :
  ports_of_node (plug nid vif port c) node = set_vif nid vif port <$> ports_of_node c node.
Proof.
  unfold ports_of_node. cbn. apply filter_fmap_preserve.
  intros bp. unfold set_vif. by case_decide.
Qed.

Lemma elem_of_ports_of_node c node bp :
  bp ∈ ports_of_node c node → bp_node_uuid bp = node.
Proof. by intros [? _]%list_elem_of_filter. Qed.

Lemma carries_clear_vif nid v vif bp :
  bp_node_uuid bp = nid →
  carries vif (clear_vif nid v bp) ↔ carries vif bp ∧ vif ≠ v.
Proof.
  intros Hnode. unfold clear_vif, carries. case_decide as Hd; cbn.
  - destruct Hd as [_ Hd]. rewrite lookup_delete_eq, Hd. split; [done|].
    by intros [[= ->] ?].
  - split; [|by intros [? _]]. intros H. split; [done|]. intros ->. tauto.
Qed.

Lemma carries_set_vif nid v port vif bp :
  bp_node_uuid bp = nid →
  carries vif (set_vif nid v port bp) ↔
    bp_id bp = port ∧ vif = v ∨ bp_id bp ≠ port ∧ carries vif bp.
Proof.
  intros Hnode. unfold set_vif, carries. case_decide as Hd; cbn.
  - destruct Hd as [_ Hd]. rewrite lookup_insert_eq. split.
    + intros [= ->]. by left.
    + intros [[_ ->]|[? _]]; done.
  - split; [|by intros [[? _]|[_ ?]]; [tauto|]]. intros H. right. split; [|done].
    intros ?. tauto.
Qed.

Lemma lookup_port_id c p :
  NoDup (port_id <$> cloud_ports c) → p ∈ cloud_ports c →
  lookup_port c (port_id p) = Ok (Some p).
Proof.
  intros Hnd Hp. unfold lookup_port.
  destruct (filter _ (cloud_ports c)) as [|q l] eqn:Hf.
  - assert (p ∈ filter (λ q, port_id q = port_id p) (cloud_ports c)) as Hin
      by (by apply list_elem_of_filter).
    rewrite Hf in Hin. by apply elem_of_nil in Hin.
  - assert (q ∈ filter (λ q, port_id q = port_id p) (cloud_ports c)) as Hin
      by (rewrite Hf; left).
    apply list_elem_of_filter in Hin as [Hid Hq].
    do 2 f_equal. by eapply NoDup_fmap_eq.
Qed.

Lemma first_network_Some networks x n :
  first_network networks x = Some n → n ∈ networks ∧ net_id n = x.
Proof.
  unfold first_network. destruct (filter _ networks) as [|m l] eqn:Hf; [done|].
  intros [= ->].
  assert (n ∈ filter (λ net, net_id net = x) networks) as Hin by (rewrite Hf; left).
  apply list_elem_of_filter in Hin. tauto.
Qed.

Lemma first_network_id networks n :
  NoDup (net_id <$> networks) → n ∈ networks →
  first_network networks (net_id n) = Some n.
Proof.
  intros Hnd Hn. unfold first_network.
  destruct (filter _ networks) as [|m l] eqn:Hf.
  - assert (n ∈ filter (λ net, net_id net = net_id n) networks) as Hin
      by (by apply list_elem_of_filter).
    rewrite Hf in Hin. by apply elem_of_nil in Hin.
  - assert (m ∈ filter (λ net, net_id net = net_id n) networks) as Hin
      by (rewrite Hf; left).
    apply list_elem_of_filter in Hin as [Hid Hm].
    cbn. f_equal. by eapply NoDup_fmap_eq.
Qed.

Lemma currently_attached_listed c bps networks n :
  n ∈ currently_attached c bps networks → n ∈ networks.
Proof.
  unfold currently_attached. intros (bp & _ & H)%list_elem_of_omap.
  unfold attached_network in H.
  destruct (internal_info bp !! tenant_vif_port_id); [|done].
  destruct (lookup_port c _) as [[np|]|]; [|done..].
  by apply first_network_Some in H as [? _].
Qed.

(** In a state that follows the convention, the networks the module
    finds attached are those whose port is carried. *)
Lemma currently_attached_plugged c node n :
  follows_convention c node → n ∈ cloud_networks c →
  n ∈ currently_attached c (ports_of_node c (node_id node)) (cloud_networks c) ↔
  plugged c node n.
Proof.
  intros Hfc Hn. unfold currently_attached. rewrite list_elem_of_omap. split.
  - intros (bp & Hbp & H). unfold attached_network in H.
    destruct (internal_info bp !! tenant_vif_port_id) as [vif|] eqn:Hvif; [|done].
    destruct (fc_vifs _ _ Hfc bp vif Hbp Hvif) as (p & m & Hp & <- & Hm & Hname).
    rewrite (lookup_port_id _ _ (fc_port_ids _ _ Hfc) Hp) in H.
    destruct (fc_named _ _ Hfc m p Hm Hp Hname) as [Hnet _].
    apply first_network_Some in H as [_ Hid]. rewrite Hnet in Hid.
    assert (n = m) as -> by (by eapply NoDup_fmap_eq; [apply (fc_net_ids _ _ Hfc)|..]).
    by exists p, bp.
  - intros (p & bp & Hp & Hname & Hbp & Hcar). exists bp. split; [done|].
    unfold attached_network. rewrite Hcar.
    rewrite (lookup_port_id _ _ (fc_port_ids _ _ Hfc) Hp).
    destruct (fc_named _ _ Hfc n p Hn Hp Hname) as [-> _].
    by apply first_network_id; [apply (fc_net_ids _ _ Hfc)|].
Qed.

(** In a state that follows the convention every VIF of the node is the
    id of a port: [find_port] answers, and the attached networks are
    found. *)
Lemma follows_convention_found c node :
  follows_convention c node →
  _get_currently_attached_networks (ports_of_node c (node_id node)) (cloud_networks c) c
  = (Ok (currently_attached c (ports_of_node c (node_id node)) (cloud_networks c)), c, []).
Proof.
  intros Hfc. apply _get_currently_attached_networks_Ok. intros bp vif Hbp Hcar.
  destruct (fc_vifs _ _ Hfc bp vif Hbp Hcar) as (p & _ & Hp & <- & _).
  exists (Some p). by apply lookup_port_id; [apply (fc_port_ids _ _ Hfc)|].
Qed.

Lemma network_name_eq c node n m :
  follows_convention c node → n ∈ cloud_networks c → m ∈ cloud_networks c →
  port_name_for (node_name node) (net_name m) =
  port_name_for (node_name node) (net_name n) → m = n.
Proof.
  intros Hfc Hn Hm Hname%port_name_for_inj.
  by eapply NoDup_fmap_eq; [apply (fc_net_names _ _ Hfc)|..].
Qed.

(** Unplugging a VIF and deleting its port keeps the convention. *)
Lemma follows_convention_detach c node vif :
  follows_convention c node →
  follows_convention (remove_port vif (unplug (node_id node) vif c)) node.
Proof.
  intros Hfc. split.
  - apply (fc_net_ids _ _ Hfc).
  - apply (fc_net_names _ _ Hfc).
  - cbn. apply (sublist_NoDup _ (port_id <$> cloud_ports c)).
    + apply (fc_port_ids _ _ Hfc).
    + apply fmap_sublist, sublist_filter.
  - change (ports_of_node (remove_port vif (unplug (node_id node) vif c)) (node_id node))
      with (ports_of_node (unplug (node_id node) vif c) (node_id node)).
    rewrite ports_of_node_unplug, <- list_fmap_compose.
    rewrite (list_fmap_ext _ bp_id); [apply (fc_bp_ids _ _ Hfc)|].
    intros _ bp _. unfold clear_vif. cbn. by case_decide.
  - intros n p Hn [_ Hp]%list_elem_of_filter Hname.
    destruct (fc_named _ _ Hfc n p Hn Hp Hname) as [Hnet Huniq].
    split; [done|]. intros q [_ Hq]%list_elem_of_filter. by apply Huniq.
  - intros bp' v.
    change (ports_of_node (remove_port vif (unplug (node_id node) vif c)) (node_id node))
      with (ports_of_node (unplug (node_id node) vif c) (node_id node)).
    rewrite ports_of_node_unplug.
    intros (bp & -> & Hbp)%list_elem_of_fmap.
    intros [Hcar Hne]%carries_clear_vif; [|by eapply elem_of_ports_of_node].
    destruct (fc_vifs _ _ Hfc bp v Hbp Hcar) as (p & n & Hp & Hid & Hn & Hname).
    exists p, n. split_and!; [|done..].
    apply list_elem_of_filter. split; [congruence|done].
Qed.

Lemma plugged_detach c node np m :
  follows_convention c node → m ∈ cloud_networks c → np ∈ cloud_ports c →
  plugged (remove_port (port_id np) (unplug (node_id node) (port_id np) c)) node m ↔
  plugged c node m ∧
  port_name np ≠ port_name_for (node_name node) (net_name m).
Proof.
  intros Hfc Hm Hnp. unfold plugged.
  change (ports_of_node (remove_port (port_id np) (unplug (node_id node) (port_id np) c))
            (node_id node))
    with (ports_of_node (unplug (node_id node) (port_id np) c) (node_id node)).
  rewrite ports_of_node_unplug. cbn [cloud_ports remove_port unplug]. split.
  - intros (p & bp' & [Hid Hp]%list_elem_of_filter & Hname &
            (bp & -> & Hbp)%list_elem_of_fmap & Hcar).
    apply carries_clear_vif in Hcar as [Hcar _]; [|by eapply elem_of_ports_of_node].
    split; [by exists p, bp|].
    intros Hnp'. destruct Hid.
    destruct (fc_named _ _ Hfc m p Hm Hp Hname) as [_ Huniq].
    rewrite (Huniq np Hnp); [done|congruence].
  - intros [(p & bp & Hp & Hname & Hbp & Hcar) Hne].
    assert (port_id p ≠ port_id np) as Hid.
    { intros Hid. destruct Hne.
      assert (p = np) as <-
        by (by eapply NoDup_fmap_eq; [apply (fc_port_ids _ _ Hfc)|..]).
      done. }
    exists p, (clear_vif (node_id node) (port_id np) bp). split_and!.
    + by apply list_elem_of_filter.
    + done.
    + by apply list_elem_of_fmap_2.
    + apply carries_clear_vif; [by eapply elem_of_ports_of_node|done].
Qed.

(** One detach iteration in a state that follows the convention: the
    convention is kept and exactly the iteration's network is
    unplugged. *)
Lemma detach_network_plugged node bps0 changed n c r c' t :
  follows_convention c node → n ∈ cloud_networks c → shows_vifs bps0 c node →
  detach_network node bps0 changed n c = (r, c', t) →
  follows_convention c' node ∧ cloud_networks c' = cloud_networks c ∧
  shows_vifs bps0 c' node ∧
  (∀ m, m ∈ cloud_networks c → plugged c' node m ↔ plugged c node m ∧ m ≠ n).
Proof.
  intros Hfc Hn Hshow. rewrite detach_network_eq.
  destruct (ports_named c _) as [|np rest] eqn:Hnamed.
  - intros [= <- <- <-]. split_and!; [done..|].
    intros m Hm. split; [|tauto]. intros Hpl. split; [done|]. intros ->.
    destruct Hpl as (p & _ & Hp & Hname & _).
    by eapply ports_named_nil.
  - destruct (ports_named_head _ _ _ _ Hnamed) as [Hnp Hnpname].
    destruct (_find_matching_baremetal_port bps0 (Some np)) as [b|] eqn:Hm.
    + intros [= <- <- <-]. split_and!.
      * by apply follows_convention_detach.
      * done.
      * intros bp' v.
        change (ports_of_node (remove_port (port_id np)
                  (unplug (node_id node) (port_id np) c)) (node_id node))
          with (ports_of_node (unplug (node_id node) (port_id np) c) (node_id node)).
        rewrite ports_of_node_unplug.
        intros (bp & -> & Hbp)%list_elem_of_fmap.
        intros [Hcar _]%carries_clear_vif; [|by eapply elem_of_ports_of_node].
        by eapply Hshow.
      * intros m Hmnet. rewrite (plugged_detach _ _ _ _ Hfc Hmnet Hnp).
        rewrite Hnpname. split.
        -- intros [Hpl Hne]. split; [done|]. by intros ->.
        -- intros [Hpl Hne]. split; [done|]. intros Heq. destruct Hne.
           by eapply network_name_eq.
    + intros [= <- <- <-]. split_and!; [done..|].
      intros m Hmnet. split; [|tauto]. intros Hpl. split; [done|]. intros ->.
      destruct Hpl as (p & bp & Hp & Hname & Hbp & Hcar).
      destruct (fc_named _ _ Hfc n p Hn Hp Hname) as [_ Huniq].
      rewrite <- (Huniq np Hnp) in Hcar by congruence.
      destruct (Hshow bp _ Hbp Hcar) as (bp0 & Hbp0 & Hcar0).
      eapply _find_matching_baremetal_port_None in Hm; [|done]. done.
Qed.

Lemma detach_loop_plugged node bps0 l changed c r c' t :
  follows_convention c node → (∀ n, n ∈ l → n ∈ cloud_networks c) →
  shows_vifs bps0 c node →
  for_loop l changed (detach_network node bps0) c = (r, c', t) →
  follows_convention c' node ∧ cloud_networks c' = cloud_networks c ∧
  (∀ m, m ∈ cloud_networks c → plugged c' node m ↔ plugged c node m ∧ m ∉ l).
Proof.
  revert changed c t. induction l as [|n l IH]; intros changed c t Hfc Hl Hshow.
  - intros [= <- <- <-]. split_and!; [done..|].
    intros m _. split; [|tauto]. intros ?. split; [done|]. apply not_elem_of_nil.
  - rewrite for_loop_cons. unfold bind.
    destruct (detach_network node bps0 changed n c) as [[r1 c1] t1] eqn:Hstep.
    destruct (detach_network_plugged _ _ _ _ _ _ _ _ Hfc (Hl n ltac:(left)) Hshow Hstep)
      as (Hfc1 & Hnets1 & Hshow1 & Hpl1).
    destruct r1 as [ch1|e].
    2:{ exfalso. destruct (detach_network_calls node bps0 changed n c)
          as (? & ? & Heq & _). rewrite Hstep in Heq. discriminate. }
    destruct (for_loop l ch1 (detach_network node bps0) c1) as [[r2 c2] t2] eqn:Hloop.
    intros [= <- <- <-].
    destruct (IH _ _ _ Hfc1 ltac:(intros; rewrite Hnets1; apply Hl; by right) Hshow1 Hloop)
      as (Hfc2 & Hnets2 & Hpl2).
    split_and!; [done|congruence|].
    intros m Hm. rewrite Hpl2 by (by rewrite Hnets1). rewrite (Hpl1 m Hm).
    rewrite not_elem_of_cons. tauto.
Qed.

(** Neutron gives a new port an id that no port has. *)
Hypothesis new_port_id_unused : ∀ c, new_port_id c ∉ port_id <$> cloud_ports c.

(** Finding or creating the port of a listed network keeps the
    convention and plugs nothing. *)
Lemma located_or_created_convention node n c :
  follows_convention c node → n ∈ cloud_networks c →
  let np := (located_or_created node n c).1.1 in
  let c1 := (located_or_created node n c).1.2 in
  follows_convention c1 node ∧ cloud_networks c1 = cloud_networks c ∧
  cloud_baremetal_ports c1 = cloud_baremetal_ports c ∧
  np ∈ cloud_ports c1 ∧
  port_name np = port_name_for (node_name node) (net_name n) ∧
  (∀ m, m ∈ cloud_networks c → plugged c1 node m ↔ plugged c node m).
Proof.
  intros Hfc Hn. cbn zeta. unfold located_or_created.
  destruct (ports_named c _) as [|np rest] eqn:Hnamed; cbn [fst snd].
  2:{ destruct (ports_named_head _ _ _ _ Hnamed). by split_and!. }
  set (np := mkPort _ _ _ _).
  assert (∀ p, p ∈ cloud_ports c → port_id p ≠ port_id np) as Hfresh.
  { intros p Hp Hid. apply (new_port_id_unused c). cbn in Hid. rewrite <- Hid.
    by apply list_elem_of_fmap_2. }
  split_and!; [|done|done| |done|].
  - split.
    + apply (fc_net_ids _ _ Hfc).
    + apply (fc_net_names _ _ Hfc).
    + cbn. rewrite fmap_app. apply NoDup_app. split_and!.
      * apply (fc_port_ids _ _ Hfc).
      * intros x Hx [->|[]%elem_of_nil]%elem_of_cons.
        by apply (new_port_id_unused c).
      * apply NoDup_singleton.
    + apply (fc_bp_ids _ _ Hfc).
    + cbn [cloud_networks cloud_ports add_port].
      intros m p Hm [Hp|Hp]%elem_of_app Hname.
      * destruct (fc_named _ _ Hfc m p Hm Hp Hname) as [Hnet Huniq].
        split; [done|]. intros q [Hq|Hq]%elem_of_app Hqname; [by apply Huniq|].
        apply list_elem_of_singleton in Hq as ->. exfalso.
        apply (ports_named_nil _ _ p Hnamed Hp). by rewrite <- Hqname.
      * apply list_elem_of_singleton in Hp as ->. cbn in Hname.
        assert (n = m) as <- by (by eapply network_name_eq).
        split; [done|]. intros q [Hq|Hq]%elem_of_app Hqname.
        -- exfalso. by apply (ports_named_nil _ _ q Hnamed Hq).
        -- by apply list_elem_of_singleton in Hq.
    + intros bp vif Hbp Hcar.
      destruct (fc_vifs _ _ Hfc bp vif Hbp Hcar) as (p & m & Hp & Hid & Hm & Hname).
      exists p, m. split_and!; [|done..]. cbn. apply elem_of_app. by left.
  - cbn. apply elem_of_app. right. left.
  - intros m Hm. unfold plugged. cbn [cloud_ports add_port]. split.
    + intros (p & bp & [Hp|Hp]%elem_of_app & Hname & Hbp & Hcar); [by exists p, bp|].
      apply list_elem_of_singleton in Hp as ->. exfalso.
      destruct (fc_vifs _ _ Hfc bp _ Hbp Hcar) as (q & _ & Hq & Hid & _).
      by apply (Hfresh q).
    + intros (p & bp & Hp & Hname & Hbp & Hcar). exists p, bp.
      split_and!; [|done..]. apply elem_of_app. by left.
Qed.

(** Plugging the port of a listed network into a free baremetal port
    keeps the convention. *)
Lemma follows_convention_plug c node n np b :
  follows_convention c node → n ∈ cloud_networks c → np ∈ cloud_ports c →
  port_name np = port_name_for (node_name node) (net_name n) →
  follows_convention (plug (node_id node) (port_id np) (bp_id b) c) node.
Proof.
  intros Hfc Hn Hnp Hname. split.
  - apply (fc_net_ids _ _ Hfc).
  - apply (fc_net_names _ _ Hfc).
  - apply (fc_port_ids _ _ Hfc).
  - rewrite ports_of_node_plug, <- list_fmap_compose.
    rewrite (list_fmap_ext _ bp_id); [apply (fc_bp_ids _ _ Hfc)|].
    intros _ bp _. unfold set_vif. cbn. by case_decide.
  - apply (fc_named _ _ Hfc).
  - intros bp' v. rewrite ports_of_node_plug.
    intros (bp & -> & Hbp)%list_elem_of_fmap.
    intros [[_ ->]|[_ Hcar]]%carries_set_vif; [| |by eapply elem_of_ports_of_node].
    + by exists np, n.
    + by apply (fc_vifs _ _ Hfc bp).
Qed.

Lemma plugged_plug c node n np b m :
  follows_convention c node → n ∈ cloud_networks c → m ∈ cloud_networks c →
  np ∈ cloud_ports c →
  port_name np = port_name_for (node_name node) (net_name n) →
  b ∈ ports_of_node c (node_id node) → is_free b →
  plugged (plug (node_id node) (port_id np) (bp_id b) c) node m ↔
  plugged c node m ∨ m = n.
Proof.
  intros Hfc Hn Hm Hnp Hname Hb Hfree. unfold plugged.
  rewrite ports_of_node_plug. cbn [cloud_ports plug]. split.
  - intros (p & bp' & Hp & Hpname & (bp & -> & Hbp)%list_elem_of_fmap & Hcar).
    apply carries_set_vif in Hcar as [[_ Hid]|[_ Hcar]];
      [| |by eapply elem_of_ports_of_node].
    + right. assert (p = np) as ->
        by (by eapply NoDup_fmap_eq; [apply (fc_port_ids _ _ Hfc)|..]).
      eapply network_name_eq; [done..|congruence].
    + left. by exists p, bp.
  - intros [(p & bp & Hp & Hpname & Hbp & Hcar)| ->].
    + exists p, (set_vif (node_id node) (port_id np) (bp_id b) bp). split_and!; [done..| |].
      * by apply list_elem_of_fmap_2.
      * apply carries_set_vif; [by eapply elem_of_ports_of_node|]. right.
        split; [|done]. intros Hid.
        assert (bp = b) as ->
          by (by eapply NoDup_fmap_eq; [apply (fc_bp_ids _ _ Hfc)|..]).
        unfold carries, is_free in *. congruence.
    + exists np, (set_vif (node_id node) (port_id np) (bp_id b) b). split_and!; [done..| |].
      * by apply list_elem_of_fmap_2.
      * apply carries_set_vif; [by eapply elem_of_ports_of_node|]. by left.
Qed.

(** One attach iteration that succeeds, in a state that follows the
    convention: the convention is kept and exactly the iteration's
    network is plugged in addition. *)
Lemma attach_network_plugged node s n c s' c' t :
  follows_convention c node → n ∈ cloud_networks c →
  attach_network node s n c = (Ok s', c', t) →
  follows_convention c' node ∧ cloud_networks c' = cloud_networks c ∧
  (∀ m, m ∈ cloud_networks c → plugged c' node m ↔ plugged c node m ∨ m = n).
Proof.
  intros Hfc Hn. rewrite attach_network_eq. cbn zeta.
  destruct (located_or_created_convention node n c Hfc Hn)
    as (Hfc1 & Hnets1 & Hbps1 & Hnp & Hname & Hpl1).
  destruct (located_or_created node n c) as [[np c1] created]. cbn [fst snd] in *.
  assert (ports_of_node c1 (node_id node) = ports_of_node c (node_id node)) as Hports
    by (unfold ports_of_node; by rewrite Hbps1).
  destruct (_find_matching_baremetal_port _ _) as [b|] eqn:Hm.
  - intros [= <- <- <-]. split_and!; [done..|].
    intros m Hmnet. rewrite (Hpl1 m Hmnet). split; [by left|].
    intros [?| ->]; [done|]. apply Hpl1; [done|].
    apply _find_matching_baremetal_port_Some in Hm as [Hb Hcar].
    exists np, b. by rewrite Hports.
  - destruct (_find_free_baremetal_port _) as [b|] eqn:Hfreeport; [|done].
    apply _find_free_baremetal_port_Some in Hfreeport
      as (pre & post & Hsplit & _ & Hfree).
    assert (b ∈ ports_of_node c1 (node_id node)) as Hb.
    { rewrite Hports, Hsplit. apply elem_of_app. right. left. }
    intros [= <- <- <-]. split_and!.
    + eapply follows_convention_plug; [done| |done..]. by rewrite Hnets1.
    + done.
    + intros m Hmnet. rewrite <- (Hpl1 m Hmnet).
      apply plugged_plug; rewrite ?Hnets1; done.
Qed.

Lemma attach_loop_plugged node l s c s' c' t :
  follows_convention c node → (∀ n, n ∈ l → n ∈ cloud_networks c) →
  for_loop l s (attach_network node) c = (Ok s', c', t) →
  follows_convention c' node ∧ cloud_networks c' = cloud_networks c ∧
  (∀ m, m ∈ cloud_networks c → plugged c' node m ↔ plugged c node m ∨ m ∈ l).
Proof.
  revert s c t. induction l as [|n l IH]; intros s c t Hfc Hl.
  - intros [= <- <- <-]. split_and!; [done..|].
    intros m _. split; [by left|]. by intros [?|?%elem_of_nil].
  - rewrite for_loop_cons. unfold bind.
    destruct (attach_network node s n c) as [[[s1|e] c1] t1] eqn:Hstep; [|done].
    destruct (attach_network_plugged _ _ _ _ _ _ _ Hfc (Hl n ltac:(left)) Hstep)
      as (Hfc1 & Hnets1 & Hpl1).
    destruct (for_loop l s1 (attach_network node) c1) as [[r2 c2] t2] eqn:Hloop.
    intros [= -> <- <-].
    destruct (IH _ _ _ Hfc1 ltac:(intros; rewrite Hnets1; apply Hl; by right) Hloop)
      as (Hfc2 & Hnets2 & Hpl2).
    split_and!; [done|congruence|].
    intros m Hm. rewrite Hpl2 by (by rewrite Hnets1). rewrite (Hpl1 m Hm).
    rewrite elem_of_cons. tauto.
Qed.

Lemma filter_none {A} (P : A → Prop) `{!∀ x, Decision (P x)} (l : list A) :
  (∀ x, x ∈ l → ¬ P x) → filter P l = [].
Proof.
  induction l as [|a l IH]; [done|]. intros Hl.
  rewrite filter_cons_False by (apply Hl; left). apply IH.
  intros x Hx. apply Hl. by right.
Qed.

Lemma filter_all {A} (P : A → Prop) `{!∀ x, Decision (P x)} (l : list A) :
  (∀ x, x ∈ l → P x) → filter P l = l.
Proof.
  induction l as [|a l IH]; [done|]. intros Hl.
  rewrite filter_cons_True by (apply Hl; left). f_equal. apply IH.
  intros x Hx. apply Hl. by right.
Qed.

Lemma elem_of_network_ids networks x :
  x ∈ network_ids networks ↔ ∃ n, n ∈ networks ∧ net_id n = x.
Proof.
  unfold network_ids. rewrite elem_of_list_to_set, list_elem_of_fmap.
  split; intros (n & ? & ?); by exists n.
Qed.

Lemma for_loop_preserves {A S B} (f : Cloud → B) (body : S → A → M S) l s c r c' t :
  (∀ s x c r c' t, body s x c = (r, c', t) → f c' = f c) →
  for_loop l s body c = (r, c', t) → f c' = f c.
Proof.
  intros Hbody. revert s c t. induction l as [|x l IH]; intros s c t.
  - by intros [= <- <- <-].
  - rewrite for_loop_cons. unfold bind.
    destruct (body s x c) as [[[s1|e] c1] t1] eqn:Hstep.
    + destruct (for_loop l s1 body c1) as [[r2 c2] t2] eqn:Hloop.
      intros [= <- <- <-]. rewrite (IH _ _ _ Hloop). by eapply Hbody.
    + intros [= <- <- <-]. by eapply Hbody.
Qed.

(** No run touches the nodes or the networks. *)
Lemma run_preserves params_node params_networks c r c' t :
  run params_node params_networks c = (r, c', t) →
  cloud_nodes c' = cloud_nodes c ∧ cloud_networks c' = cloud_networks c.
Proof.
  destruct (lookup_node c params_node) as [node|] eqn:Hnode.
  2:{ rewrite (run_not_found _ _ _ Hnode). by intros [= <- <- <-]. }
  run_cases_at Hnode; [|by intros [= <- <- <-]].
  set (bps := ports_of_node c (node_id node)).
  destruct (for_loop (networks_to_detach _ _) false _ c) as [[r1 c1] t1] eqn:Hdet.
  assert (cloud_nodes c1 = cloud_nodes c ∧ cloud_networks c1 = cloud_networks c)
    as [Hn1 Hw1].
  { split.
    - eapply (for_loop_preserves cloud_nodes); [|done].
      intros s x c0 r0 c0' t0. rewrite detach_network_eq.
      destruct (ports_named c0 _); [by intros [= <- <- <-]|].
      destruct (_find_matching_baremetal_port _ _); by intros [= <- <- <-].
    - eapply (for_loop_preserves cloud_networks); [|done].
      intros s x c0 r0 c0' t0. rewrite detach_network_eq.
      destruct (ports_named c0 _); [by intros [= <- <- <-]|].
      destruct (_find_matching_baremetal_port _ _); by intros [= <- <- <-]. }
  destruct r1 as [ch1|e]; [|by intros [= <- <- <-]].
  destruct (for_loop (networks_to_attach _ _) _ _ c1) as [[r2 c2] t2] eqn:Hatt.
  assert (cloud_nodes c2 = cloud_nodes c1 ∧ cloud_networks c2 = cloud_networks c1)
    as [Hn2 Hw2].
  { split.
    - eapply (for_loop_preserves cloud_nodes); [|done].
      intros s x c0 r0 c0' t0. rewrite attach_network_eq. unfold located_or_created.
      cbn zeta. destruct (ports_named c0 _);
        destruct (_find_matching_baremetal_port _ _);
        try destruct (_find_free_baremetal_port _); by intros [= <- <- <-].
    - eapply (for_loop_preserves cloud_networks); [|done].
      intros s x c0 r0 c0' t0. rewrite attach_network_eq. unfold located_or_created.
      cbn zeta. destruct (ports_named c0 _);
        destruct (_find_matching_baremetal_port _ _);
        try destruct (_find_free_baremetal_port _); by intros [= <- <- <-]. }
  destruct r2; intros [= <- <- <-]; split; congruence.
Qed.

(** A run that ends normally in a state that follows the convention
    leaves plugged exactly the desired networks. *)
Lemma run_plugged params_node params_networks c node changed c' t :
  lookup_node c params_node = Some node → follows_convention c node →
  run params_node params_networks c = (Ok changed, c', t) →
  follows_convention c' node ∧
  (∀ m, m ∈ cloud_networks c →
     plugged c' node m ↔
     m ∈ desired_network_objects (cloud_networks c) (default [] params_networks)).
Proof.
  intros Hnode Hfc.
  rewrite (run_eq _ _ _ _ Hnode (follows_convention_found _ _ Hfc)).
  set (bps := ports_of_node c (node_id node)).
  set (desired := desired_network_objects _ _).
  set (current := currently_attached _ _ _).
  assert (∀ m, m ∈ desired → m ∈ cloud_networks c) as Hdesired
    by (by intros m [_ ?]%list_elem_of_filter).
  assert (∀ m, m ∈ current → m ∈ cloud_networks c) as Hcurrent
    by (intros m; apply currently_attached_listed).
  destruct (for_loop (networks_to_detach desired current) false _ c)
    as [[[ch1|e] c1] t1] eqn:Hdet; [|done].
  destruct (detach_loop_plugged _ _ _ _ _ _ _ _ Hfc
              ltac:(by intros n [_ ?%Hcurrent]%list_elem_of_filter)
              ltac:(intros bp vif ??; by exists bp) Hdet)
    as (Hfc1 & Hnets1 & Hpl1).
  destruct (for_loop (networks_to_attach desired current) _ _ c1)
    as [[[s2|e] c2] t2] eqn:Hatt; [|done].
  destruct (attach_loop_plugged _ _ _ _ _ _ _ Hfc1
              ltac:(intros n [_ ?%Hdesired]%list_elem_of_filter; by rewrite Hnets1)
              Hatt)
    as (Hfc2 & Hnets2 & Hpl2).
  intros [= <- <- <-]. split; [done|].
  intros m Hm. rewrite Hpl2 by (by rewrite Hnets1). rewrite (Hpl1 m Hm).
  rewrite <- (currently_attached_plugged c node m Hfc Hm). fold bps current.
  unfold networks_to_detach, networks_to_attach.
  rewrite !list_elem_of_filter, !elem_of_network_ids.
  assert (∀ l : list Network, (∀ x, x ∈ l → x ∈ cloud_networks c) →
               (∃ n, n ∈ l ∧ net_id n = net_id m) ↔ m ∈ l) as Hid.
  { intros l Hl. split; [|by exists m]. intros (n & Hn & Heq).
    assert (n = m) as <-; [|done].
    eapply NoDup_fmap_eq; [apply (fc_net_ids _ _ Hfc)|by apply Hl|done..]. }
  rewrite (Hid desired Hdesired), (Hid current Hcurrent).
  destruct (decide (m ∈ current)), (decide (m ∈ desired)); tauto.
Qed.

(** ** More on the run, in every state of the cloud *)

(** A property of the state that every iteration keeps, and a property of
    calls that every iteration's calls have, hold after the loop, however
    it ends. *)
Lemma for_loop_invariant {A S} (I : Cloud → Prop) (Q : Event → Prop)
    (body : S → A → M S) l s c r c' t :
  (∀ s x c r c' t, x ∈ l → I c → body s x c = (r, c', t) → I c' ∧ Forall Q t) →
  I c → for_loop l s body c = (r, c', t) → I c' ∧ Forall Q t.
Proof.
  revert s c t. induction l as [|x l IH]; intros s c t Hbody HI.
  - intros [= <- <- <-]. split; [done|constructor].
  - rewrite for_loop_cons. unfold bind.
    destruct (body s x c) as [[[s1|e] c1] t1] eqn:Hstep.
    + destruct (for_loop l s1 body c1) as [[r2 c2] t2] eqn:Hloop.
      intros [= <- <- <-].
      destruct (Hbody _ _ _ _ _ _ ltac:(left) HI Hstep) as [HI1 HQ1].
      destruct (IH _ _ _ ltac:(intros ????????; eapply Hbody; [by right|done..])
                  HI1 Hloop) as [HI2 HQ2].
      split; [done|]. by apply Forall_app.
    + intros [= <- <- <-]. by eapply Hbody; [left|..].
Qed.

Lemma detach_loop_Ok node bps l changed c :
  ∃ changed' c' t, for_loop l changed (detach_network node bps) c = (Ok changed', c', t).
Proof.
  destruct (detach_loop_calls node bps l changed c) as (ch & c' & ds & H & _).
  by exists ch, c', (concat ds).
Qed.

(** X1. A run ends in one of four ways: the node is not found, and
    nothing was done; or a VIF recorded on one of the node's ports is
    the id of no port and the name of several, [find_port] raises while
    the attached networks are looked for, and nothing was done; or the
    run ends normally; or an attach iteration found no free port, the
    message names a network that was to be attached, and in the state
    the run ends in no baremetal port of the node is free. *)
Theorem run_failure_modes params_node params_networks c :
  match lookup_node c params_node with
  | None =>
      run params_node params_networks c = (Raise (ResourceNotFound params_node), c, [])
  | Some node =>
      let bps := ports_of_node c (node_id node) in
      let networks := cloud_networks c in
      let desired := desired_network_objects networks (default [] params_networks) in
      let current := currently_attached c bps networks in
      (∃ bp vif,
         bp ∈ bps ∧ carries vif bp ∧
         filter (λ p, port_id p = vif) (cloud_ports c) = [] ∧
         2 ≤ length (filter (λ p, port_name p = vif) (cloud_ports c)) ∧
         run params_node params_networks c = (Raise (DuplicateResource vif), c, [])) ∨
      (_get_currently_attached_networks bps networks c = (Ok current, c, []) ∧
       ((∃ changed, result_of (run params_node params_networks c) = Ok changed) ∨
        (∃ network,
           network ∈ networks_to_attach desired current ∧
           result_of (run params_node params_networks c)
           = Raise (fail_json (no_free_ports_msg node network)) ∧
           free_ports (cloud_of (run params_node params_networks c)) node = [])))
  end.
Proof.
  destruct (lookup_node c params_node) as [node|] eqn:Hnode; [|by apply run_not_found].
  cbn zeta.
  destruct (run_cases _ params_networks _ _ Hnode)
    as [[Hfound ->]|(bp & vif & Hbp & Hcar & Hvif & _ & ->)]; cbn zeta in *.
  2:{ left. exists bp, vif. destruct (lookup_port_Raise _ _ _ Hvif) as (_ & Hid & Hname).
      by split_and!. }
  right. split; [done|].
  set (bps := ports_of_node c (node_id node)).
  set (desired := desired_network_objects _ _).
  set (current := currently_attached _ _ _).
  destruct (detach_loop_Ok node bps (networks_to_detach desired current) false c)
    as (ch1 & c1 & t1 & ->).
  destruct (for_loop (networks_to_attach desired current) _ _ c1)
    as [[[s|e] c2] t2] eqn:Hatt.
  - left. by exists s.2.
  - right.
    destruct (attach_loop_Raise _ _ _ _ _ _ _ Hatt)
      as (reached & network & rest & s1 & c3 & t3 & t4 & Hsplit & _ & Hstep & _).
    exists network. revert Hstep. rewrite attach_network_eq. cbn zeta.
    assert (cloud_baremetal_ports (located_or_created node network c3).1.2
            = cloud_baremetal_ports c3) as Hbm.
    { unfold located_or_created. by destruct (ports_named c3 _). }
    destruct (located_or_created node network c3) as [[np c4] created].
    cbn [fst snd] in Hbm.
    destruct (_find_matching_baremetal_port _ _); [done|].
    destruct (_find_free_baremetal_port _) eqn:Hfree; [done|].
    intros [= <- <- <-]. split_and!.
    + rewrite Hsplit. apply elem_of_app. right. left.
    + done.
    + unfold cloud_of, free_ports, ports_of_node. cbn [fst snd]. rewrite Hbm.
      apply filter_none. apply Forall_forall.
      by apply _find_free_baremetal_port_None.
Qed.

(** X2. When the networks found attached and the networks matched by the
    desired list have the same ids, whatever the state is otherwise, the
    run detaches nothing, attaches nothing, issues no call, leaves the
    cloud as it is and reports [changed = false]. *)
Theorem satisfied_state_is_a_no_op params_node params_networks c node current :
  lookup_node c params_node = Some node →
  _get_currently_attached_networks (ports_of_node c (node_id node)) (cloud_networks c) c
  = (Ok current, c, []) →
  network_ids (desired_network_objects (cloud_networks c) (default [] params_networks))
  = network_ids current →
  run params_node params_networks c = (Ok false, c, []).
Proof.
  intros Hnode Hfound Hids.
  destruct (_get_currently_attached_networks_inv _ _ _ _ _ _ Hfound) as (-> & _).
  rewrite (run_eq _ _ _ _ Hnode Hfound).
  unfold networks_to_detach, networks_to_attach. rewrite Hids.
  rewrite filter_none.
  2:{ intros n Hn Hid. apply Hid, elem_of_network_ids. by exists n. }
  rewrite <- Hids. rewrite filter_none; [done|].
  intros n Hn Hid. apply Hid, elem_of_network_ids. by exists n.
Qed.

(** X3. The desired list counts as a set of references: two lists with
    the same elements, in any order and with any repetitions, a network
    given by its name, by its id or by both, give the same run. *)
Theorem run_depends_on_reference_set params_node refs1 refs2 c :
  (∀ x, x ∈ refs1 ↔ x ∈ refs2) →
  run params_node (Some refs1) c = run params_node (Some refs2) c.
Proof.
  intros Hrefs.
  assert (desired_network_objects (cloud_networks c) refs1
          = desired_network_objects (cloud_networks c) refs2) as Hdesired.
  { apply list_filter_iff. intros n. by rewrite !Hrefs. }
  destruct (lookup_node c params_node) as [node|] eqn:Hnode.
  - destruct (_get_currently_attached_networks_cases (ports_of_node c (node_id node))
                (cloud_networks c) c) as [Hfound|(bp & vif & _ & _ & _ & Hfound)].
    + rewrite !(run_eq _ _ _ _ Hnode Hfound).
      change (default [] (Some refs1)) with refs1.
      change (default [] (Some refs2)) with refs2. by rewrite Hdesired.
    + by rewrite !(run_duplicate _ _ _ _ _ Hnode Hfound).
  - by rewrite !(run_not_found _ _ _ Hnode).
Qed.

(** [detach_vif_from_node] and [attach_vif_to_node] are given the node:
    they leave the ports of the other nodes alone, and no port changes
    its id or its node. *)
Lemma filter_fmap_fixed {A} (P : A → Prop) `{!∀ x, Decision (P x)}
    (f : A → A) (l : list A) :
  (∀ x, P (f x) ↔ P x) → (∀ x, P x → f x = x) →
  filter P (f <$> l) = filter P l.
Proof.
  intros Hiff Hfix. rewrite filter_fmap_preserve by done.
  induction l as [|a l IH]; [done|]. rewrite filter_cons.
  destruct (decide (P a)); [|done]. cbn. by rewrite IH, Hfix.
Qed.

Lemma out_of_reach_unplug node vif c :
  out_of_reach node (unplug node vif c) = out_of_reach node c.
Proof.
  unfold out_of_reach. cbn. f_equal; [f_equal|].
  - rewrite <- list_fmap_compose. apply list_fmap_ext.
    intros _ bp _. unfold clear_vif. cbn. by case_decide.
  - apply filter_fmap_fixed; intros bp; unfold clear_vif; case_decide; cbn; tauto.
Qed.

Lemma out_of_reach_plug node vif port c :
  out_of_reach node (plug node vif port c) = out_of_reach node c.
Proof.
  unfold out_of_reach. cbn. f_equal; [f_equal|].
  - rewrite <- list_fmap_compose. apply list_fmap_ext.
    intros _ bp _. unfold set_vif. cbn. by case_decide.
  - apply filter_fmap_fixed; intros bp; unfold set_vif; case_decide; cbn; tauto.
Qed.

Lemma detach_network_out_of_reach node bps changed n c r c' t :
  detach_network node bps changed n c = (r, c', t) →
  out_of_reach (node_id node) c' = out_of_reach (node_id node) c.
Proof.
  rewrite detach_network_eq.
  destruct (ports_named c _); [by intros [= <- <- <-]|].
  destruct (_find_matching_baremetal_port _ _); intros [= <- <- <-]; [|done].
  by rewrite <- (out_of_reach_unplug (node_id node) (port_id p) c).
Qed.

Lemma attach_network_out_of_reach node s n c r c' t :
  attach_network node s n c = (r, c', t) →
  out_of_reach (node_id node) c' = out_of_reach (node_id node) c.
Proof.
  rewrite attach_network_eq. cbn zeta.
  assert (out_of_reach (node_id node) (located_or_created node n c).1.2
          = out_of_reach (node_id node) c) as Hloc.
  { unfold located_or_created. by destruct (ports_named c _). }
  destruct (located_or_created node n c) as [[np c1] created]. cbn [fst snd] in Hloc.
  destruct (_find_matching_baremetal_port _ _); [by intros [= <- <- <-]|].
  destruct (_find_free_baremetal_port _); intros [= <- <- <-]; [|done].
  by rewrite out_of_reach_plug.
Qed.

(** X4. Whatever a run does and however it ends, the nodes and the
    networks are as before, every baremetal port is still there with its
    id and its node, and the baremetal ports of the other nodes are
    exactly as they were. *)
Theorem run_frame params_node params_networks c :
  cloud_nodes (cloud_of (run params_node params_networks c)) = cloud_nodes c ∧
  cloud_networks (cloud_of (run params_node params_networks c)) = cloud_networks c ∧
  (λ bp, (bp_id bp, bp_node_uuid bp)) <$>
    cloud_baremetal_ports (cloud_of (run params_node params_networks c))
  = (λ bp, (bp_id bp, bp_node_uuid bp)) <$> cloud_baremetal_ports c ∧
  ∀ node, lookup_node c params_node = Some node →
    filter (λ bp, bp_node_uuid bp ≠ node_id node)
      (cloud_baremetal_ports (cloud_of (run params_node params_networks c)))
    = filter (λ bp, bp_node_uuid bp ≠ node_id node) (cloud_baremetal_ports c).
Proof.
  destruct (lookup_node c params_node) as [node|] eqn:Hnode.
  2:{ by rewrite (run_not_found _ _ _ Hnode). }
  assert (out_of_reach (node_id node) (cloud_of (run params_node params_networks c))
          = out_of_reach (node_id node) c) as Hout.
  { run_cases_at Hnode; [|done].
    destruct (for_loop (networks_to_detach _ _) false _ c) as [[r1 c1] t1] eqn:Hdet.
    assert (out_of_reach (node_id node) c1 = out_of_reach (node_id node) c) as H1.
    { eapply (for_loop_preserves (out_of_reach (node_id node))); [|done].
      intros ??????. apply detach_network_out_of_reach. }
    destruct r1 as [ch1|e]; [|done].
    destruct (for_loop (networks_to_attach _ _) _ _ c1) as [[r2 c2] t2] eqn:Hatt.
    assert (out_of_reach (node_id node) c2 = out_of_reach (node_id node) c1) as H2.
    { eapply (for_loop_preserves (out_of_reach (node_id node))); [|done].
      intros ??????. apply attach_network_out_of_reach. }
    destruct r2; unfold cloud_of; cbn; congruence. }
  unfold out_of_reach in Hout. injection Hout as Hnodes Hnets Hids Hothers.
  split_and!; [done..|]. by intros node' [= <-].
Qed.

Lemma ports_of_node_located_or_created node n c node' :
  ports_of_node (located_or_created node n c).1.2 node' = ports_of_node c node'.
Proof. unfold located_or_created. by destruct (ports_named c _). Qed.

Lemma is_free_clear_vif node vif bp : is_free bp → is_free (clear_vif node vif bp).
Proof.
  unfold is_free, clear_vif. intros Hfree. case_decide; [|done]. cbn.
  by rewrite lookup_delete_eq.
Qed.

Lemma free_count_unplug node vif (l : list BaremetalPort) :
  length (filter is_free l) ≤ length (filter is_free (clear_vif node vif <$> l)).
Proof.
  induction l as [|bp l IH]; [done|]. cbn [fmap list_fmap]. rewrite !filter_cons.
  destruct (decide (is_free bp)) as [Hfree|].
  - rewrite decide_True by (by apply is_free_clear_vif). cbn. lia.
  - destruct (decide (is_free (clear_vif node vif bp))); cbn; lia.
Qed.

Lemma set_vif_other_ids node vif port (l : list BaremetalPort) :
  port ∉ bp_id <$> l → set_vif node vif port <$> l = l.
Proof.
  induction l as [|bp l IH]; [done|]. cbn [fmap list_fmap].
  intros [Hbp Hl]%not_elem_of_cons. rewrite IH by done. f_equal.
  unfold set_vif. case_decide as Hd; [|done]. by destruct Hd as [_ Hd].
Qed.

Lemma free_count_plug node vif port (l : list BaremetalPort) :
  NoDup (bp_id <$> l) →
  length (filter is_free l) ≤ S (length (filter is_free (set_vif node vif port <$> l))).
Proof.
  induction l as [|bp l IH]; [cbn; lia|]. cbn [fmap list_fmap].
  intros [Hbp Hl]%NoDup_cons. rewrite !filter_cons.
  destruct (decide (bp_id bp = port)) as [<-|Hne].
  - rewrite (set_vif_other_ids _ _ _ l Hbp).
    destruct (decide (is_free bp)), (decide (is_free (set_vif node vif (bp_id bp) bp)));
      cbn; lia.
  - assert (set_vif node vif port bp = bp) as ->.
    { unfold set_vif. case_decide as Hd; [|done]. by destruct Hd as [_ Hd]. }
    specialize (IH Hl). destruct (decide (is_free bp)); cbn; lia.
Qed.

Lemma bp_ids_unplug node vif (l : list BaremetalPort) :
  bp_id <$> (clear_vif node vif <$> l) = bp_id <$> l.
Proof.
  rewrite <- list_fmap_compose. apply list_fmap_ext.
  intros _ bp _. unfold clear_vif. cbn. by case_decide.
Qed.

Lemma bp_ids_plug node vif port (l : list BaremetalPort) :
  bp_id <$> (set_vif node vif port <$> l) = bp_id <$> l.
Proof.
  rewrite <- list_fmap_compose. apply list_fmap_ext.
  intros _ bp _. unfold set_vif. cbn. by case_decide.
Qed.

(** A detach iteration frees ports, it takes none. *)
Lemma detach_network_free_ports node bps changed n c r c' t :
  detach_network node bps changed n c = (r, c', t) →
  bp_id <$> ports_of_node c' (node_id node) = bp_id <$> ports_of_node c (node_id node) ∧
  length (free_ports c node) ≤ length (free_ports c' node).
Proof.
  rewrite detach_network_eq.
  destruct (ports_named c _) as [|np rest]; [by intros [= <- <- <-]|].
  destruct (_find_matching_baremetal_port _ _); intros [= <- <- <-]; [|done].
  unfold free_ports.
  change (ports_of_node (remove_port (port_id np) (unplug (node_id node) (port_id np) c))
            (node_id node))
    with (ports_of_node (unplug (node_id node) (port_id np) c) (node_id node)).
  rewrite ports_of_node_unplug. split; [apply bp_ids_unplug|apply free_count_unplug].
Qed.

(** An attach iteration takes at most one free port, and fails only when
    there is none. *)
Lemma attach_network_free_ports node s n c r c' t :
  NoDup (bp_id <$> ports_of_node c (node_id node)) →
  attach_network node s n c = (r, c', t) →
  bp_id <$> ports_of_node c' (node_id node) = bp_id <$> ports_of_node c (node_id node) ∧
  length (free_ports c node) ≤ S (length (free_ports c' node)) ∧
  (free_ports c node ≠ [] → ∃ s', r = Ok s').
Proof.
  intros Hnd. rewrite attach_network_eq. cbn zeta.
  pose proof (ports_of_node_located_or_created node n c (node_id node)) as Hports.
  destruct (located_or_created node n c) as [[np c1] created]. cbn [fst snd] in Hports.
  unfold free_ports.
  destruct (_find_matching_baremetal_port _ _).
  { intros [= <- <- <-]. rewrite Hports. split_and!; [done|lia|by eexists]. }
  destruct (_find_free_baremetal_port _) as [b|] eqn:Hfree; intros [= <- <- <-].
  - rewrite ports_of_node_plug, Hports.
    split_and!; [apply bp_ids_plug|by apply free_count_plug|by eexists].
  - rewrite Hports. split_and!; [done|lia|]. intros Hne. destruct Hne.
    apply filter_none, Forall_forall. by apply _find_free_baremetal_port_None.
Qed.

Lemma attach_loop_enough_free_ports node l s c :
  NoDup (bp_id <$> ports_of_node c (node_id node)) →
  length l ≤ length (free_ports c node) →
  ∃ s' c' t, for_loop l s (attach_network node) c = (Ok s', c', t).
Proof.
  revert s c. induction l as [|n l IH]; intros s c Hnd Hlen; [by eexists _, _, _|].
  rewrite for_loop_cons. unfold bind.
  destruct (attach_network node s n c) as [[r1 c1] t1] eqn:Hstep.
  destruct (attach_network_free_ports _ _ _ _ _ _ _ Hnd Hstep) as (Hids & Hfree & Hok).
  destruct Hok as [s1 ->].
  { intros Hnil. rewrite Hnil in Hlen. cbn in Hlen. lia. }
  destruct (IH s1 c1) as (s' & c' & t & ->).
  - by rewrite Hids.
  - cbn in Hlen. lia.
  - by eexists _, _, _.
Qed.

(** X5. When the node's baremetal ports have distinct ids and there are at
    least as many free ones as there are networks to attach, the run
    does not fail for want of a free port: the detach phase only frees
    ports, and every attach iteration takes at most one.  So the run
    ends normally whenever the attached networks were found. *)
Theorem enough_free_ports_no_failure params_node params_networks c node :
  lookup_node c params_node = Some node →
  NoDup (bp_id <$> ports_of_node c (node_id node)) →
  let bps := ports_of_node c (node_id node) in
  let networks := cloud_networks c in
  let desired := desired_network_objects networks (default [] params_networks) in
  let current := currently_attached c bps networks in
  length (networks_to_attach desired current) ≤ length (free_ports c node) →
  (∀ msg, result_of (run params_node params_networks c) ≠ Raise (fail_json msg)) ∧
  (∀ found,
     _get_currently_attached_networks bps networks c = (Ok found, c, []) →
     ∃ changed, result_of (run params_node params_networks c) = Ok changed).
Proof.
  intros Hnode Hnd. cbn zeta. intros Hlen.
  assert (_get_currently_attached_networks (ports_of_node c (node_id node))
            (cloud_networks c) c
          = (Ok (currently_attached c (ports_of_node c (node_id node)) (cloud_networks c)),
             c, []) →
          ∃ changed, result_of (run params_node params_networks c) = Ok changed) as Hok.
  { intros Hfound. rewrite (run_eq _ _ _ _ Hnode Hfound).
    set (bps := ports_of_node c (node_id node)) in *.
    set (desired := desired_network_objects _ _) in *.
    set (current := currently_attached _ _ _) in *.
    destruct (for_loop (networks_to_detach desired current) false _ c)
      as [[r1 c1] t1] eqn:Hdet.
    assert ((bp_id <$> ports_of_node c1 (node_id node) = bp_id <$> bps ∧
             length (free_ports c node) ≤ length (free_ports c1 node)) ∧
            Forall (λ _, True) t1) as [[Hids Hfree] _].
    { eapply (for_loop_invariant
                (λ c', bp_id <$> ports_of_node c' (node_id node) = bp_id <$> bps ∧
                       length (free_ports c node) ≤ length (free_ports c' node))
                (λ _, True)); [|done|exact Hdet].
      intros s x c0 r c0' t _ [Hids Hfree] Hstep.
      destruct (detach_network_free_ports _ _ _ _ _ _ _ _ Hstep) as [? ?].
      split; [split; [congruence|lia]|by apply Forall_true]. }
    destruct (detach_loop_Ok node bps (networks_to_detach desired current) false c)
      as (ch1 & c1' & t1' & Hdet').
    rewrite Hdet in Hdet'. injection Hdet' as -> <- <-.
    destruct (attach_loop_enough_free_ports node (networks_to_attach desired current)
                (bps, ch1) c1) as (s' & c' & t & ->).
    - by rewrite Hids.
    - lia.
    - by exists s'.2. }
  split.
  - intros msg.
    destruct (_get_currently_attached_networks_cases (ports_of_node c (node_id node))
                (cloud_networks c) c) as [Hfound|(bp & vif & _ & _ & _ & Hfound)].
    + destruct (Hok Hfound) as [changed ->]. done.
    + by rewrite (run_duplicate _ _ _ _ _ Hnode Hfound).
  - intros found Hfound. apply Hok.
    by destruct (_get_currently_attached_networks_inv _ _ _ _ _ _ Hfound) as (<- & _).
Qed.

Lemma detach_network_flag node bps changed n c changed' c' t :
  detach_network node bps changed n c = (Ok changed', c', t) →
  changed' = false → changed = false ∧ c' = c ∧ t = [].
Proof.
  rewrite detach_network_eq.
  destruct (ports_named c _); [by intros [= <- <- <-]|].
  destruct (_find_matching_baremetal_port _ _); by intros [= <- <- <-].
Qed.

Lemma detach_loop_flag node bps l changed c changed' c' t :
  for_loop l changed (detach_network node bps) c = (Ok changed', c', t) →
  changed' = false → changed = false ∧ c' = c ∧ t = [].
Proof.
  revert changed c t. induction l as [|n l IH]; intros changed c t.
  - by intros [= <- <- <-].
  - rewrite for_loop_cons. unfold bind.
    destruct (detach_network node bps changed n c) as [[[ch1|e] c1] t1] eqn:Hstep; [|done].
    destruct (for_loop l ch1 _ c1) as [[r2 c2] t2] eqn:Hloop.
    intros [= -> <- <-] Hfalse.
    destruct (IH _ _ _ Hloop Hfalse) as (-> & -> & ->).
    destruct (detach_network_flag _ _ _ _ _ _ _ _ Hstep eq_refl) as (-> & -> & ->).
    done.
Qed.

Section UncarriedIds.

(** Neutron gives a new port an id that is not recorded as a VIF on any
    baremetal port. *)
Hypothesis new_port_id_uncarried :
  ∀ c bp, bp ∈ cloud_baremetal_ports c → ¬ carries (new_port_id c) bp.

Lemma attach_network_flag node s n c s' c' t :
  attach_network node s n c = (Ok s', c', t) →
  s'.2 = false → s.2 = false ∧ c' = c ∧ t = [].
Proof.
  rewrite attach_network_eq. unfold located_or_created. cbn zeta.
  destruct (ports_named c _) as [|np rest].
  - destruct (_find_matching_baremetal_port _ _) as [bp|] eqn:Hm.
    + apply _find_matching_baremetal_port_Some in Hm as [Hbp Hcar]. exfalso.
      apply list_elem_of_filter in Hbp as [_ Hbp].
      by apply (new_port_id_uncarried c bp).
    + destruct (_find_free_baremetal_port _); [|done]. by intros [= <- <- <-].
  - destruct (_find_matching_baremetal_port _ _); [by intros [= <- <- <-]|].
    destruct (_find_free_baremetal_port _); [|done]. by intros [= <- <- <-].
Qed.

Lemma attach_loop_flag node l s c s' c' t :
  for_loop l s (attach_network node) c = (Ok s', c', t) →
  s'.2 = false → s.2 = false ∧ c' = c ∧ t = [].
Proof.
  revert s c t. induction l as [|n l IH]; intros s c t.
  - by intros [= <- <- <-].
  - rewrite for_loop_cons. unfold bind.
    destruct (attach_network node s n c) as [[[s1|e] c1] t1] eqn:Hstep; [|done].
    destruct (for_loop l s1 _ c1) as [[r2 c2] t2] eqn:Hloop.
    intros [= -> <- <-] Hfalse.
    destruct (IH _ _ _ Hloop Hfalse) as (Hs1 & -> & ->).
    destruct (attach_network_flag _ _ _ _ _ _ _ Hstep Hs1) as (-> & -> & ->).
    done.
Qed.

(** X6. With Neutron giving new ports ids that no baremetal port records,
    [changed = false] can be trusted: a run that reports it has issued no
    call and has left the cloud exactly as it was. *)
Theorem unchanged_run_is_a_no_op params_node params_networks c c' t :
  run params_node params_networks c = (Ok false, c', t) →
  c' = c ∧ t = [].
Proof.
  destruct (lookup_node c params_node) as [node|] eqn:Hnode.
  2:{ by rewrite (run_not_found _ _ _ Hnode). }
  run_cases_at Hnode; [|done].
  destruct (for_loop (networks_to_detach _ _) false _ c)
    as [[[ch1|e] c1] t1] eqn:Hdet; [|done].
  destruct (for_loop (networks_to_attach _ _) _ _ c1)
    as [[[s2|e] c2] t2] eqn:Hatt; [|done].
  intros [= Hflag <- <-].
  destruct (attach_loop_flag _ _ _ _ _ _ _ Hatt Hflag) as (Hch1 & -> & ->).
  cbn in Hch1. subst ch1.
  destruct (detach_loop_flag _ _ _ _ _ _ _ _ Hdet eq_refl) as (_ & -> & ->).
  done.
Qed.

End UncarriedIds.

Lemma detach_calls_length node (l : list Network) ds :
  Forall2 (detach_calls node) l ds → length (concat ds) ≤ 2 * length l.
Proof.
  induction 1 as [|n d l ds Hd _ IH]; [done|]. cbn. rewrite length_app.
  destruct Hd as [->|(np & _ & ->)]; cbn; lia.
Qed.

Lemma attach_calls_length node (l : list Network) evs :
  Forall2 (attach_calls node) l evs → length (concat evs) ≤ 2 * length l.
Proof.
  induction 1 as [|n d l ds Hd _ IH]; [done|]. cbn. rewrite length_app.
  destruct Hd as (vif & bp & Hsub). apply sublist_length in Hsub. cbn in Hsub. lia.
Qed.

(** X7. A run issues at most two calls for each network to detach (the
    VIF detach and the deletion of the port) and at most two for each
    network to attach (the creation of the port and the VIF attach). *)
Theorem run_issues_at_most_two_calls_per_network params_node params_networks c node :
  lookup_node c params_node = Some node →
  let bps := ports_of_node c (node_id node) in
  let networks := cloud_networks c in
  let desired := desired_network_objects networks (default [] params_networks) in
  let current := currently_attached c bps networks in
  length (log_of (run params_node params_networks c))
  ≤ 2 * length (networks_to_detach desired current)
    + 2 * length (networks_to_attach desired current).
Proof.
  intros Hnode. cbn zeta. run_cases_at Hnode; [|cbn; lia].
  set (bps := ports_of_node c (node_id node)).
  set (desired := desired_network_objects _ _).
  set (current := currently_attached _ _ _).
  destruct (detach_loop_calls node bps (networks_to_detach desired current) false c)
    as (ch1 & c1 & ds & -> & Hds%detach_calls_length & _).
  destruct (for_loop (networks_to_attach desired current) _ _ c1)
    as [[r c2] t2] eqn:Hatt.
  destruct (attach_loop_calls _ _ _ _ _ _ _ Hatt)
    as (reached & evs & Hpre%prefix_length & Hevs%attach_calls_length & -> & _).
  assert (length (concat ds ++ concat evs)
          ≤ 2 * length (networks_to_detach desired current)
            + 2 * length (networks_to_attach desired current)) as Hlen
    by (rewrite length_app; lia).
  by destruct r.
Qed.

Lemma detach_groups_pairing node (l : list Network) ds rest pre ev post :
  Forall2 (detach_calls node) l ds →
  Forall is_attach_phase_call rest →
  concat ds ++ rest = pre ++ ev :: post →
  (∀ p, ev = DeletePort p → ∃ pre', pre = pre' ++ [DetachVif (node_id node) p]) ∧
  (∀ n v, ev = DetachVif n v → n = node_id node ∧ ∃ post', post = DeletePort v :: post').
Proof.
  intros Hds Hrest. revert pre. induction Hds as [|n d l ds Hd _ IH]; intros pre Heq.
  - cbn in Heq. assert (is_attach_phase_call ev) as Hev.
    { eapply Forall_forall; [exact Hrest|]. rewrite Heq. apply elem_of_app. right. left. }
    split; [by intros p ->|by intros m v ->].
  - cbn [concat] in Heq. destruct Hd as [->|(np & _ & ->)]; [by apply IH|].
    cbn in Heq. destruct pre as [|e1 [|e2 pre]]; cbn in Heq.
    + injection Heq as <- <-. split; [done|]. intros m v [= <- <-]. split; [done|].
      by eexists.
    + injection Heq as <- <- <-. split; [|done]. intros p [= <-]. by exists [].
    + injection Heq as <- <- Heq. destruct (IH pre Heq) as [Hdel Hdet]. split.
      * intros p Hp. destruct (Hdel p Hp) as [pre' ->].
        by exists (DetachVif (node_id node) (port_id np) :: DeletePort (port_id np) :: pre').
      * done.
Qed.

(** X8. In the calls of a run, the deletion of a port comes right after
    the detach of that same port's VIF from the node, and every VIF detach
    is followed at once by the deletion of its port: the module deletes no
    port it has not just detached, and leaves no port it has detached. *)
Theorem port_deleted_right_after_its_detach params_node params_networks c pre ev post :
  log_of (run params_node params_networks c) = pre ++ ev :: post →
  (∀ p, ev = DeletePort p →
     ∃ node pre', lookup_node c params_node = Some node ∧
                  pre = pre' ++ [DetachVif (node_id node) p]) ∧
  (∀ n v, ev = DetachVif n v →
     ∃ node post', lookup_node c params_node = Some node ∧ n = node_id node ∧
                   post = DeletePort v :: post').
Proof.
  destruct (lookup_node c params_node) as [node|] eqn:Hnode.
  2:{ rewrite (run_not_found _ _ _ Hnode). by destruct pre. }
  run_cases_at Hnode; [|by destruct pre].
  set (bps := ports_of_node c (node_id node)).
  set (desired := desired_network_objects _ _).
  set (current := currently_attached _ _ _).
  destruct (detach_loop_calls node bps (networks_to_detach desired current) false c)
    as (ch1 & c1 & ds & -> & Hds & _).
  destruct (for_loop (networks_to_attach desired current) _ _ c1)
    as [[r c2] t2] eqn:Hatt.
  destruct (attach_loop_calls _ _ _ _ _ _ _ Hatt)
    as (reached & evs & _ & Hevs & -> & _).
  assert (Forall is_attach_phase_call (concat evs)) as Hphase.
  { eapply Forall_concat_Forall2; [|done]. apply attach_calls_phase. }
  intros Hlog.
  assert (concat ds ++ concat evs = pre ++ ev :: post) as Heq by (by destruct r).
  destruct (detach_groups_pairing _ _ _ _ _ _ _ Hds Hphase Heq) as [Hdel Hdet].
  split.
  - intros p Hp. destruct (Hdel p Hp) as [pre' ->]. by exists node, pre'.
  - intros n v Hv. destruct (Hdet n v Hv) as [-> [post' ->]]. by exists node, post'.
Qed.

(** X9. [_find_matching_baremetal_port] answers [None] for no port at
    all, and otherwise the first baremetal port of the list, in list
    order, that records the port's id; [None] when none does. *)
Theorem find_matching_is_first_carrier bps :
  _find_matching_baremetal_port bps None = None ∧
  ∀ np,
    (∀ bp, _find_matching_baremetal_port bps (Some np) = Some bp ↔
           ∃ pre post, bps = pre ++ bp :: post ∧
                       Forall (λ b, ¬ carries (port_id np) b) pre ∧
                       carries (port_id np) bp) ∧
    (_find_matching_baremetal_port bps (Some np) = None ↔
     Forall (λ b, ¬ carries (port_id np) b) bps).
Proof.
  split; [by destruct bps|]. intros np. split.
  - intros bp. induction bps as [|b bps IH]; cbn.
    + split; [done|]. intros (pre & post & H & _). by destruct pre.
    + case_decide as Hb.
      * split.
        -- intros [= <-]. by exists [], bps.
        -- intros (pre & post & H & Hpre & Hbp). destruct pre as [|b' pre].
           { by injection H as ->. }
           injection H as -> ->. by apply Forall_cons in Hpre as [? _].
      * rewrite IH. split.
        -- intros (pre & post & -> & Hpre & Hbp). exists (b :: pre), post.
           split_and!; [done| |done]. by apply Forall_cons.
        -- intros (pre & post & H & Hpre & Hbp). destruct pre as [|b' pre].
           { by injection H as ->. }
           injection H as -> ->. apply Forall_cons in Hpre as [_ Hpre].
           by exists pre, post.
  - rewrite _find_matching_baremetal_port_None. by rewrite Forall_forall.
Qed.

Lemma append_assoc (a b c : string) : (a +:+ b) +:+ c = a +:+ b +:+ c.
Proof.
  induction a as [|ch a IH]; [done|].
  change ((String ch a +:+ b) +:+ c) with (String ch ((a +:+ b) +:+ c)).
  change (String ch a +:+ b +:+ c) with (String ch (a +:+ b +:+ c)).
  by rewrite IH.
Qed.

(** X11. The name of a network's port is ["<node-name>-<network-name>"]:
    for one node, two network names give two port names; but a hyphen in
    the names makes pairs collide, the node ["a-b"] with the network ["c"]
    and the node ["a"] with the network ["b-c"] share the name, so that in
    every state [_find_network_port] finds for the one the port of the
    other. *)
Theorem port_names_tell_networks_apart_not_nodes :
  (∀ node_name a b,
     port_name_for node_name a = port_name_for node_name b → a = b) ∧
  (∀ a b c, port_name_for (a +:+ "-" +:+ b) c = port_name_for a (b +:+ "-" +:+ c)) ∧
  (∀ a b c st,
     _find_network_port (a +:+ "-" +:+ b) c st
     = _find_network_port a (b +:+ "-" +:+ c) st).
Proof.
  assert (∀ a b c, port_name_for (a +:+ "-" +:+ b) c = port_name_for a (b +:+ "-" +:+ c))
    as Hcollide.
  { intros a b c. unfold port_name_for. by rewrite !append_assoc. }
  split_and!; [apply port_name_for_inj|done|].
  intros a b c st. unfold _find_network_port. by rewrite Hcollide.
Qed.

(** X12. If no two ports share a name, no two ports share a name after
    the run, however it ends: a port is created only under a name that no
    port bears. *)
Theorem run_keeps_port_names_distinct params_node params_networks c :
  NoDup (port_name <$> cloud_ports c) →
  NoDup (port_name <$> cloud_ports (cloud_of (run params_node params_networks c))).
Proof.
  intros Hnd. destruct (lookup_node c params_node) as [node|] eqn:Hnode.
  2:{ by rewrite (run_not_found _ _ _ Hnode). }
  run_cases_at Hnode; [|done].
  destruct (for_loop (networks_to_detach _ _) false _ c) as [[r1 c1] t1] eqn:Hdet.
  assert (NoDup (port_name <$> cloud_ports c1) ∧ Forall (λ _, True) t1) as [Hnd1 _].
  { eapply (for_loop_invariant (λ c', NoDup (port_name <$> cloud_ports c')) (λ _, True));
      [|exact Hnd|exact Hdet].
    intros s x c0 r c0' t _ Hnd0. rewrite detach_network_eq.
    destruct (ports_named c0 _) as [|np rest];
      [intros [= <- <- <-]; split; [done|constructor]|].
    destruct (_find_matching_baremetal_port _ _); intros [= <- <- <-];
      (split; [|by apply Forall_true]); [|done].
    cbn. apply (sublist_NoDup _ (port_name <$> cloud_ports c0)); [done|].
    apply fmap_sublist, sublist_filter. }
  destruct r1 as [ch1|e]; [|done].
  destruct (for_loop (networks_to_attach _ _) _ _ c1) as [[r2 c2] t2] eqn:Hatt.
  assert (NoDup (port_name <$> cloud_ports c2) ∧ Forall (λ _, True) t2) as [Hnd2 _].
  { eapply (for_loop_invariant (λ c', NoDup (port_name <$> cloud_ports c')) (λ _, True));
      [|exact Hnd1|exact Hatt].
    intros s x c0 r c0' t _ Hnd0. rewrite attach_network_eq. cbn zeta.
    assert (NoDup (port_name <$> cloud_ports (located_or_created node x c0).1.2)) as Hloc.
    { unfold located_or_created. destruct (ports_named c0 _) eqn:Hnamed; [|done].
      cbn. rewrite fmap_app. apply NoDup_app. split_and!; [done| |apply NoDup_singleton].
      intros name (p & -> & Hp)%list_elem_of_fmap [Heq|[]%elem_of_nil]%elem_of_cons.
      by eapply ports_named_nil. }
    destruct (located_or_created node x c0) as [[np c3] created]. cbn [fst snd] in Hloc.
    destruct (_find_matching_baremetal_port _ _);
      [intros [= <- <- <-]; split; [done|by apply Forall_true]|].
    destruct (_find_free_baremetal_port _); intros [= <- <- <-];
      (split; [done|by apply Forall_true]). }
  by destruct r2.
Qed.

(** X13. What is detached and what is attached are the two differences,
    by network id, of the attached and the desired networks: the ids to
    detach are the attached ids that are not desired, the ids to attach
    the desired ids that are not attached, and no id is in both; each list
    keeps the order of the list it is taken from. *)
Theorem detach_and_attach_lists_are_the_differences desired current :
  network_ids (networks_to_detach desired current)
  = network_ids current ∖ network_ids desired ∧
  network_ids (networks_to_attach desired current)
  = network_ids desired ∖ network_ids current ∧
  network_ids (networks_to_detach desired current)
  ## network_ids (networks_to_attach desired current) ∧
  networks_to_detach desired current `sublist_of` current ∧
  networks_to_attach desired current `sublist_of` desired.
Proof.
  assert (∀ a b : list Network,
            network_ids (filter (λ net, net_id net ∉ network_ids a) b)
            = network_ids b ∖ network_ids a) as Hdiff.
  { intros a b. apply set_eq. intros x.
    rewrite elem_of_difference, !elem_of_network_ids. split.
    - intros (n & [Hid Hn]%list_elem_of_filter & <-). split; [by exists n|].
      by rewrite <- elem_of_network_ids.
    - intros [(n & Hn & <-) Hid]. exists n. split; [|done].
      apply list_elem_of_filter. split; [|done]. by rewrite elem_of_network_ids. }
  unfold networks_to_detach, networks_to_attach. rewrite !Hdiff.
  split_and!; [done|done| |apply sublist_filter..].
  apply elem_of_disjoint. intros x [H1 H2]%elem_of_difference [H3 H4]%elem_of_difference.
  done.
Qed.

Lemma currently_attached_length c (bps : list BaremetalPort) networks :
  length (currently_attached c bps networks)
  ≤ length (filter (λ bp, ¬ is_free bp) bps).
Proof.
  unfold currently_attached. induction bps as [|bp bps IH]; [done|].
  cbn [omap list_omap]. rewrite filter_cons. unfold attached_network at 1.
  destruct (decide (¬ is_free bp)) as [Hbusy|Hfree].
  - destruct (internal_info bp !! tenant_vif_port_id); [|cbn; lia].
    destruct (lookup_port c _) as [[np|]|]; [|cbn; lia..].
    destruct (first_network _ _); cbn; lia.
  - assert (is_free bp) as -> by (by destruct (decide (is_free bp))). done.
Qed.

(** X14. [_get_currently_attached_networks] walks the ports in order.
    What it returns, when it returns, is the list [currently_attached]:
    the networks of a list of ports are those of its first part followed
    by those of the rest; there is at most one network per port that
    records a VIF, and none for a free port; and every network returned
    is in the network list, the first one there with its id, which is
    the network id of the port some baremetal port's VIF resolves to. *)
Theorem attached_networks_follow_the_ports c networks :
  (∀ bps found c' t,
     _get_currently_attached_networks bps networks c = (Ok found, c', t) →
     found = currently_attached c bps networks) ∧
  (∀ bps1 bps2,
     currently_attached c (bps1 ++ bps2) networks
     = currently_attached c bps1 networks ++ currently_attached c bps2 networks) ∧
  (∀ bps, length (currently_attached c bps networks)
          ≤ length (filter (λ bp, ¬ is_free bp) bps)) ∧
  (∀ bps, Forall is_free bps → currently_attached c bps networks = []) ∧
  (∀ bps n,
     n ∈ currently_attached c bps networks ↔
     ∃ bp vif np,
       bp ∈ bps ∧ carries vif bp ∧ lookup_port c vif = Ok (Some np) ∧
       first_network networks (port_network_id np) = Some n) ∧
  (∀ bps n,
     n ∈ currently_attached c bps networks →
     ∃ pre post, networks = pre ++ n :: post ∧ net_id n ∉ net_id <$> pre).
Proof.
  assert (∀ bps n,
     n ∈ currently_attached c bps networks ↔
     ∃ bp vif np,
       bp ∈ bps ∧ carries vif bp ∧ lookup_port c vif = Ok (Some np) ∧
       first_network networks (port_network_id np) = Some n) as Hspec.
  { intros bps n. unfold currently_attached. rewrite list_elem_of_omap. split.
    - intros (bp & Hbp & H). unfold attached_network in H.
      destruct (internal_info bp !! tenant_vif_port_id) as [vif|] eqn:Hvif; [|done].
      destruct (lookup_port c vif) as [[np|]|] eqn:Hnp; [|done..].
      by exists bp, vif, np.
    - intros (bp & vif & np & Hbp & Hcar & Hnp & Hn). exists bp. split; [done|].
      unfold attached_network. by rewrite Hcar, Hnp. }
  split_and!.
  - intros bps found c' t Hfound.
    by destruct (_get_currently_attached_networks_inv _ _ _ _ _ _ Hfound) as (-> & _).
  - intros bps1 bps2. apply omap_app.
  - intros bps. apply currently_attached_length.
  - intros bps Hfree. pose proof (currently_attached_length c bps networks) as Hlen.
    rewrite filter_none in Hlen.
    + destruct (currently_attached c bps networks); [done|]. cbn in Hlen. lia.
    + intros bp Hbp Hbusy. apply Hbusy. by eapply Forall_forall.
  - done.
  - intros bps n (bp & vif & np & _ & _ & _ & Hn)%Hspec.
    pose proof (first_network_Some _ _ _ Hn) as [_ Hid].
    apply head_filter_Some in Hn as (pre & post & -> & Hpre).
    exists pre, post. split; [done|].
    intros (m & Hm & Hmpre)%list_elem_of_fmap.
    eapply Forall_forall in Hpre; [|exact Hmpre]. apply Hpre. congruence.
Qed.

(** ** Convergence and idempotence, where the convention is followed *)

(** X17. In a state that follows the naming convention for the
    node, and with Neutron giving new ports unused ids, a run that ends
    normally leaves the node attached to exactly the desired networks:
    the ids of the networks derived from the node's baremetal ports are
    the ids of the networks matched by the desired list. *)
Theorem reconcile_converges params_node params_networks c node changed c' t :
  lookup_node c params_node = Some node →
  follows_convention c node →
  run params_node params_networks c = (Ok changed, c', t) →
  attached_network_ids c' node =
  network_ids (desired_network_objects (cloud_networks c) (default [] params_networks)).
Proof.
  intros Hnode Hfc Hrun.
  destruct (run_plugged _ _ _ _ _ _ _ Hnode Hfc Hrun) as [Hfc' Hpl].
  destruct (run_preserves _ _ _ _ _ _ Hrun) as [_ Hnets].
  apply set_eq. intros x. unfold attached_network_ids.
  rewrite !elem_of_network_ids. split.
  - intros (m & Hm & <-). exists m. split; [|done].
    pose proof (currently_attached_listed _ _ _ _ Hm) as Hlisted.
    apply (currently_attached_plugged _ _ _ Hfc' Hlisted) in Hm.
    apply Hpl; [by rewrite <- Hnets|done].
  - intros (m & Hm & <-). exists m. split; [|done].
    assert (m ∈ cloud_networks c) as Hlisted
      by (by apply list_elem_of_filter in Hm as [_ ?]).
    apply currently_attached_plugged; [done|by rewrite Hnets|].
    by apply Hpl.
Qed.

(** X18. In a state that follows the naming convention for the
    node, and with Neutron giving new ports unused ids, running the
    module again right after a run that ended normally, with the same
    parameters, finds nothing to detach and nothing to attach, issues no
    call, leaves the cloud as it is and reports [changed = false]. *)
Theorem reconcile_idempotent params_node params_networks c node changed c' t :
  lookup_node c params_node = Some node →
  follows_convention c node →
  run params_node params_networks c = (Ok changed, c', t) →
  let bps := ports_of_node c' (node_id node) in
  let desired :=
    desired_network_objects (cloud_networks c') (default [] params_networks) in
  let current := currently_attached c' bps (cloud_networks c') in
  networks_to_detach desired current = [] ∧
  networks_to_attach desired current = [] ∧
  run params_node params_networks c' = (Ok false, c', []).
Proof.
  intros Hnode Hfc Hrun. cbn zeta.
  destruct (run_plugged _ _ _ _ _ _ _ Hnode Hfc Hrun) as [Hfc' Hpl].
  destruct (run_preserves _ _ _ _ _ _ Hrun) as [Hnodes Hnets].
  assert (lookup_node c' params_node = Some node) as Hnode'
    by (unfold lookup_node in *; by rewrite Hnodes).
  assert (networks_to_detach
            (desired_network_objects (cloud_networks c') (default [] params_networks))
            (currently_attached c' (ports_of_node c' (node_id node)) (cloud_networks c'))
          = []) as Hdet.
  { apply filter_none. intros m Hm Hid. apply Hid, elem_of_network_ids.
    exists m. split; [|done].
    pose proof (currently_attached_listed _ _ _ _ Hm) as Hlisted.
    apply (currently_attached_plugged _ _ _ Hfc' Hlisted) in Hm.
    rewrite Hnets. apply Hpl; [by rewrite <- Hnets|done]. }
  assert (networks_to_attach
            (desired_network_objects (cloud_networks c') (default [] params_networks))
            (currently_attached c' (ports_of_node c' (node_id node)) (cloud_networks c'))
          = []) as Hatt.
  { apply filter_none. intros m Hm Hid. apply Hid, elem_of_network_ids.
    exists m. split; [|done]. rewrite Hnets in Hm.
    assert (m ∈ cloud_networks c) as Hlisted
      by (by apply list_elem_of_filter in Hm as [_ ?]).
    apply currently_attached_plugged; [done|by rewrite Hnets|].
    by apply Hpl. }
  split_and!; [done..|].
  rewrite (run_eq _ _ _ _ Hnode' (follows_convention_found _ _ Hfc')).
  by rewrite Hdet, Hatt.
Qed.

(** With a desired list that matches no network, a run that found the
    attached networks is its detach loop over every one of them. *)
Lemma run_unmatched params_node desired_networks c node :
  lookup_node c params_node = Some node →
  (∀ net, net ∈ cloud_networks c →
          (net_name net ∉ desired_networks) ∧ (net_id net ∉ desired_networks)) →
  _get_currently_attached_networks (ports_of_node c (node_id node)) (cloud_networks c) c
  = (Ok (currently_attached c (ports_of_node c (node_id node)) (cloud_networks c)), c, []) →
  run params_node (Some desired_networks) c =
  for_loop (currently_attached c (ports_of_node c (node_id node)) (cloud_networks c))
    false (detach_network node (ports_of_node c (node_id node))) c.
Proof.
  intros Hnode Hnone Hfound. rewrite (run_eq _ _ _ _ Hnode Hfound).
  change (default [] (Some desired_networks)) with desired_networks.
  assert (desired_network_objects (cloud_networks c) desired_networks = []) as ->.
  { apply filter_none. intros net Hnet. destruct (Hnone net Hnet). tauto. }
  unfold networks_to_detach, networks_to_attach. rewrite filter_nil.
  rewrite filter_all.
  2:{ intros net _. unfold network_ids. cbn. apply not_elem_of_empty. }
  destruct (for_loop _ false _ c) as [[[ch|e] c1] t1]; [|done].
  cbn. by rewrite app_nil_r.
Qed.

(** X19. With a desired list whose entries match no network's name or id,
    a run on a node that resolves is, in result, final state and calls,
    the run with the empty list and the run without the parameter.  No
    port is created and no VIF attached.  When the attached networks
    are found, the run does not fail and is the detach loop over every
    one of them: each is detached if the port bearing the expected name
    is carried by a baremetal port, and skipped otherwise.  In a state
    that follows the naming convention the run ends normally and no
    network is left attached. *)
Theorem unmatched_desired_list_only_detaches params_node desired_networks c node :
  lookup_node c params_node = Some node →
  (∀ net, net ∈ cloud_networks c →
          (net_name net ∉ desired_networks) ∧ (net_id net ∉ desired_networks)) →
  let bps := ports_of_node c (node_id node) in
  let current := currently_attached c bps (cloud_networks c) in
  run params_node (Some desired_networks) c = run params_node (Some []) c ∧
  run params_node (Some desired_networks) c = run params_node None c ∧
  Forall (λ ev, ¬ is_attach_phase_call ev)
    (log_of (run params_node (Some desired_networks) c)) ∧
  (_get_currently_attached_networks bps (cloud_networks c) c = (Ok current, c, []) →
   ∃ changed c' t,
     run params_node (Some desired_networks) c = (Ok changed, c', t) ∧
     for_loop current false (detach_network node bps) c = (Ok changed, c', t)) ∧
  (follows_convention c node →
   ∃ changed,
     result_of (run params_node (Some desired_networks) c) = Ok changed ∧
     attached_network_ids (cloud_of (run params_node (Some desired_networks) c)) node = ∅).
Proof.
  intros Hnode Hnone. cbn zeta.
  set (bps := ports_of_node c (node_id node)).
  set (current := currently_attached c bps (cloud_networks c)).
  assert (∀ net, net ∈ cloud_networks c → (net_name net ∉ []) ∧ (net_id net ∉ []))
    as Hempty by (intros net _; split; apply not_elem_of_nil).
  destruct (detach_loop_calls node bps current false c)
    as (changed & c' & ds & Hloop & Hds & _).
  assert (run params_node (Some desired_networks) c = run params_node (Some []) c ∧
          Forall (λ ev, ¬ is_attach_phase_call ev)
            (log_of (run params_node (Some desired_networks) c))) as [Heq Hlog].
  { destruct (_get_currently_attached_networks_cases bps (cloud_networks c) c)
      as [Hfound|(bp & vif & _ & _ & _ & Hfound)].
    - rewrite !(run_unmatched _ _ _ _ Hnode) by done. split; [done|].
      fold bps current. rewrite Hloop.
      eapply Forall_concat_Forall2; [|done]. apply detach_calls_phase.
    - rewrite !(run_duplicate _ _ _ _ _ Hnode Hfound). split; [done|constructor]. }
  split_and!; [done|done|done| |].
  - intros Hfound. exists changed, c', (concat ds). split; [|done].
    by rewrite (run_unmatched _ _ _ _ Hnode Hnone Hfound).
  - intros Hfc. rewrite (run_unmatched _ _ _ _ Hnode Hnone (follows_convention_found _ _ Hfc)).
    fold bps current. rewrite Hloop. exists changed. split; [done|].
    destruct (detach_loop_plugged _ _ _ _ _ _ _ _ Hfc
                ltac:(intros n; apply currently_attached_listed)
                ltac:(intros bp vif ??; by exists bp) Hloop)
      as (Hfc' & Hnets & Hpl).
    apply set_eq. intros x. unfold attached_network_ids, cloud_of. cbn [fst snd].
    rewrite elem_of_network_ids. split; [|by intros ?%not_elem_of_empty].
    intros (m & Hm & _). exfalso.
    pose proof (currently_attached_listed _ _ _ _ Hm) as Hlisted.
    apply (currently_attached_plugged _ _ _ Hfc' Hlisted) in Hm.
    rewrite Hnets in Hlisted. apply (Hpl m Hlisted) in Hm as [Hm Hnot].
    apply Hnot. by apply currently_attached_plugged.
Qed.

(** ** More on the run, where the convention is followed *)

Lemma detach_network_convention node bps changed n c r c' t :
  follows_convention c node →
  detach_network node bps changed n c = (r, c', t) →
  follows_convention c' node ∧ cloud_networks c' = cloud_networks c.
Proof.
  intros Hfc. rewrite detach_network_eq.
  destruct (ports_named c _); [by intros [= <- <- <-]|].
  destruct (_find_matching_baremetal_port _ _); intros [= <- <- <-]; [|done].
  split; [by apply follows_convention_detach|done].
Qed.

(** An attach iteration keeps the convention, also when it fails. *)
Lemma attach_network_convention node s n c r c' t :
  follows_convention c node → n ∈ cloud_networks c →
  attach_network node s n c = (r, c', t) →
  follows_convention c' node ∧ cloud_networks c' = cloud_networks c.
Proof.
  intros Hfc Hn. rewrite attach_network_eq. cbn zeta.
  destruct (located_or_created_convention node n c Hfc Hn)
    as (Hfc1 & Hnets1 & _ & Hnp & Hname & _).
  destruct (located_or_created node n c) as [[np c1] created]. cbn [fst snd] in *.
  destruct (_find_matching_baremetal_port _ _); [by intros [= <- <- <-]|].
  destruct (_find_free_baremetal_port _) as [b|]; intros [= <- <- <-]; [|done].
  split; [|done]. eapply follows_convention_plug; [done| |done..]. by rewrite Hnets1.
Qed.

(** X15. A run keeps the naming convention, however it ends: after a run
    that failed for want of a free port, too, the state follows the
    convention, so that the next run starts from a state in which it
    converges. *)
Theorem run_keeps_convention params_node params_networks c node :
  lookup_node c params_node = Some node →
  follows_convention c node →
  follows_convention (cloud_of (run params_node params_networks c)) node.
Proof.
  intros Hnode Hfc.
  rewrite (run_eq _ _ _ _ Hnode (follows_convention_found _ _ Hfc)).
  set (bps := ports_of_node c (node_id node)).
  set (desired := desired_network_objects _ _).
  set (current := currently_attached _ _ _).
  destruct (for_loop (networks_to_detach desired current) false _ c)
    as [[r1 c1] t1] eqn:Hdet.
  assert ((follows_convention c1 node ∧ cloud_networks c1 = cloud_networks c) ∧
          Forall (λ _, True) t1) as [[Hfc1 Hnets1] _].
  { eapply (for_loop_invariant
              (λ c', follows_convention c' node ∧ cloud_networks c' = cloud_networks c)
              (λ _, True)); [|done|exact Hdet].
    intros s x c0 r c0' t _ [Hfc0 Hnets0] Hstep.
    destruct (detach_network_convention _ _ _ _ _ _ _ _ Hfc0 Hstep) as [? ?].
    split; [split; [done|congruence]|by apply Forall_true]. }
  destruct r1 as [ch1|e]; [|done].
  destruct (for_loop (networks_to_attach desired current) _ _ c1)
    as [[r2 c2] t2] eqn:Hatt.
  assert ((follows_convention c2 node ∧ cloud_networks c2 = cloud_networks c) ∧
          Forall (λ _, True) t2) as [[Hfc2 _] _].
  { eapply (for_loop_invariant
              (λ c', follows_convention c' node ∧ cloud_networks c' = cloud_networks c)
              (λ _, True)); [|done|exact Hatt].
    intros s x c0 r c0' t Hx [Hfc0 Hnets0] Hstep.
    assert (x ∈ cloud_networks c0) as Hlisted.
    { rewrite Hnets0. apply list_elem_of_filter in Hx as [_ Hx].
      by apply list_elem_of_filter in Hx as [_ ?]. }
    destruct (attach_network_convention _ _ _ _ _ _ _ Hfc0 Hlisted Hstep) as [? ?].
    split; [split; [done|congruence]|by apply Forall_true]. }
  by destruct r2.
Qed.

Lemma detach_network_undisturbed node bps changed n m p bid c r c' t :
  n ∈ cloud_networks c → m ∈ cloud_networks c → n ≠ m →
  port_name p = port_name_for (node_name node) (net_name m) →
  undisturbed node (cloud_networks c) p bid c →
  detach_network node bps changed n c = (r, c', t) →
  undisturbed node (cloud_networks c) p bid c' ∧ Forall (leaves_alone node p) t.
Proof.
  intros Hn Hm Hne Hname (Hfc & _ & Hp & bp & Hbp & Hbid & Hcar).
  rewrite detach_network_eq.
  destruct (ports_named c _) as [|np rest] eqn:Hnamed.
  { intros [= <- <- <-]. split; [|constructor]. split_and!; [done..|by exists bp]. }
  destruct (ports_named_head _ _ _ _ Hnamed) as [Hnp Hnpname].
  destruct (_find_matching_baremetal_port _ _); intros [= <- <- <-].
  2:{ split; [|constructor]. split_and!; [done..|by exists bp]. }
  assert (port_id np ≠ port_id p) as Hid.
  { intros Hid. apply Hne.
    assert (np = p) as -> by (by eapply NoDup_fmap_eq; [apply (fc_port_ids _ _ Hfc)|..]).
    eapply network_name_eq; [done..|congruence]. }
  split.
  - split_and!.
    + by apply follows_convention_detach.
    + done.
    + cbn. apply list_elem_of_filter. split; [congruence|done].
    + exists (clear_vif (node_id node) (port_id np) bp). split_and!.
      * change (ports_of_node (remove_port (port_id np)
                  (unplug (node_id node) (port_id np) c)) (node_id node))
          with (ports_of_node (unplug (node_id node) (port_id np) c) (node_id node)).
        rewrite ports_of_node_unplug. by apply list_elem_of_fmap_2.
      * unfold clear_vif. by case_decide.
      * apply carries_clear_vif; [by eapply elem_of_ports_of_node|]. split; [done|congruence].
  - repeat constructor; intros [= ?]; congruence.
Qed.

Lemma located_or_created_ports node n c p :
  p ∈ cloud_ports c → p ∈ cloud_ports (located_or_created node n c).1.2.
Proof.
  intros Hp. unfold located_or_created. destruct (ports_named c _); [|done].
  cbn. apply elem_of_app. by left.
Qed.

Lemma located_or_created_calls node n c :
  Forall is_attach_phase_call (located_or_created node n c).2.
Proof.
  unfold located_or_created. destruct (ports_named c _); cbn; by repeat constructor.
Qed.

Lemma attach_network_undisturbed node s n p bid c r c' t :
  n ∈ cloud_networks c →
  undisturbed node (cloud_networks c) p bid c →
  attach_network node s n c = (r, c', t) →
  undisturbed node (cloud_networks c) p bid c' ∧ Forall (leaves_alone node p) t.
Proof.
  intros Hn (Hfc & _ & Hp & bp & Hbp & Hbid & Hcar).
  rewrite attach_network_eq. cbn zeta.
  destruct (located_or_created_convention node n c Hfc Hn)
    as (Hfc1 & Hnets1 & Hbm1 & Hnp & Hname & _).
  pose proof (located_or_created_ports node n c p Hp) as Hp1.
  pose proof (located_or_created_calls node n c) as Hcalls.
  pose proof (ports_of_node_located_or_created node n c (node_id node)) as Hports.
  destruct (located_or_created node n c) as [[np c1] created]. cbn [fst snd] in *.
  assert (Forall (leaves_alone node p) created) as Hcreated.
  { eapply Forall_impl; [exact Hcalls|]. intros ev Hev. split; by intros ->. }
  assert (undisturbed node (cloud_networks c) p bid c1) as Hund1.
  { split_and!; [done..|]. exists bp. by rewrite Hports. }
  destruct (_find_matching_baremetal_port _ _); [by intros [= <- <- <-]|].
  destruct (_find_free_baremetal_port _) as [b|] eqn:Hfree; intros [= <- <- <-]; [|done].
  apply _find_free_baremetal_port_Some in Hfree as (pre & post & Hsplit & _ & Hbfree).
  assert (b ∈ ports_of_node c (node_id node)) as Hb
    by (rewrite Hsplit; apply elem_of_app; right; left).
  split.
  - split_and!.
    + eapply follows_convention_plug; [done| |done..]. by rewrite Hnets1.
    + done.
    + done.
    + exists (set_vif (node_id node) (port_id np) (bp_id b) bp). split_and!.
      * rewrite ports_of_node_plug, Hports. by apply list_elem_of_fmap_2.
      * unfold set_vif. by case_decide.
      * apply carries_set_vif; [by eapply elem_of_ports_of_node|]. right.
        split; [|done]. intros Hid.
        assert (bp = b) as ->
          by (by eapply NoDup_fmap_eq; [apply (fc_bp_ids _ _ Hfc)|..]).
        unfold carries, is_free in *. congruence.
  - apply Forall_app. split; [done|]. repeat constructor; by intros [= ?].
Qed.

(** X16. Where the convention is followed, a network that is desired and
    already attached is left alone, however the run ends: its port is
    neither detached nor deleted, and at the end it is still there and
    still carried by the same baremetal port. *)
Theorem desired_attached_network_undisturbed
    params_node params_networks c node m p bp :
  lookup_node c params_node = Some node →
  follows_convention c node →
  m ∈ desired_network_objects (cloud_networks c) (default [] params_networks) →
  p ∈ cloud_ports c →
  port_name p = port_name_for (node_name node) (net_name m) →
  bp ∈ ports_of_node c (node_id node) → carries (port_id p) bp →
  p ∈ cloud_ports (cloud_of (run params_node params_networks c)) ∧
  (∃ bp', bp' ∈ ports_of_node (cloud_of (run params_node params_networks c)) (node_id node) ∧
          bp_id bp' = bp_id bp ∧ carries (port_id p) bp') ∧
  (DetachVif (node_id node) (port_id p) ∉ log_of (run params_node params_networks c)) ∧
  (DeletePort (port_id p) ∉ log_of (run params_node params_networks c)).
Proof.
  intros Hnode Hfc Hm Hp Hname Hbp Hcar.
  assert (undisturbed node (cloud_networks c) p (bp_id bp)
            (cloud_of (run params_node params_networks c)) ∧
          Forall (leaves_alone node p) (log_of (run params_node params_networks c)))
    as [(_ & _ & Hp' & Hbp') Hlog].
  { rewrite (run_eq _ _ _ _ Hnode (follows_convention_found _ _ Hfc)).
    set (bps := ports_of_node c (node_id node)).
    set (desired := desired_network_objects _ _) in *.
    set (current := currently_attached _ _ _).
    assert (m ∈ cloud_networks c) as Hmlisted
      by (by apply list_elem_of_filter in Hm as [_ ?]).
    assert (undisturbed node (cloud_networks c) p (bp_id bp) c) as Hund
      by (split_and!; [done..|by exists bp]).
    destruct (for_loop (networks_to_detach desired current) false _ c)
      as [[r1 c1] t1] eqn:Hdet.
    assert (undisturbed node (cloud_networks c) p (bp_id bp) c1 ∧
            Forall (leaves_alone node p) t1) as [Hund1 Hlog1].
    { eapply (for_loop_invariant (undisturbed node (cloud_networks c) p (bp_id bp))
                (leaves_alone node p)); [|exact Hund|exact Hdet].
      intros s x c0 r c0' t Hx Hund0 Hstep.
      pose proof Hund0 as (_ & Hnets0 & _).
      apply list_elem_of_filter in Hx as [Hxid Hx].
      assert (x ∈ cloud_networks c0) as Hxlisted
        by (rewrite Hnets0; by eapply currently_attached_listed).
      assert (m ∈ cloud_networks c0) as Hmlisted0 by (by rewrite Hnets0).
      rewrite <- Hnets0 in Hund0 |- *.
      eapply (detach_network_undisturbed _ _ _ x m);
        [done|done| |done|exact Hund0|exact Hstep].
      intros ->. apply Hxid, elem_of_network_ids. by exists m. }
    destruct r1 as [ch1|e]; [|done].
    destruct (for_loop (networks_to_attach desired current) _ _ c1)
      as [[r2 c2] t2] eqn:Hatt.
    assert (undisturbed node (cloud_networks c) p (bp_id bp) c2 ∧
            Forall (leaves_alone node p) t2) as [Hund2 Hlog2].
    { eapply (for_loop_invariant (undisturbed node (cloud_networks c) p (bp_id bp))
                (leaves_alone node p)); [|exact Hund1|exact Hatt].
      intros s x c0 r c0' t Hx Hund0 Hstep.
      pose proof Hund0 as (_ & Hnets0 & _).
      apply list_elem_of_filter in Hx as [_ Hx].
      apply list_elem_of_filter in Hx as [_ Hx].
      assert (x ∈ cloud_networks c0) as Hxlisted by (by rewrite Hnets0).
      rewrite <- Hnets0 in Hund0 |- *.
      by eapply (attach_network_undisturbed _ _ x); [|exact Hund0|exact Hstep]. }
    assert (Forall (leaves_alone node p) (t1 ++ t2)) as Hlog
      by (by apply Forall_app).
    by destruct r2. }
  split_and!; [done|done| |].
  - intros Hin. by destruct (proj1 (Forall_forall _ _) Hlog _ Hin) as [? _].
  - intros Hin. by destruct (proj1 (Forall_forall _ _) Hlog _ Hin) as [_ ?].
Qed.

End NodeNetworkModule.

(** ** The statements on the example states *)

Lemma unused_port_id_unused c : unused_port_id c ∉ port_id <$> cloud_ports c.
Proof. apply infinite_is_fresh. Qed.

Lemma cloud_scenario_follows_convention : follows_convention cloud_scenario node_N.
Proof.
  split.
  - by apply (bool_decide_unpack _); vm_compute.
  - by apply (bool_decide_unpack _); vm_compute.
  - by apply (bool_decide_unpack _); vm_compute.
  - by apply (bool_decide_unpack _); vm_compute.
  - intros n p Hn Hp Hname.
    apply list_elem_of_singleton in Hp as ->.
    apply elem_of_cons in Hn as [->|Hn].
    + split; [done|]. by intros q ->%list_elem_of_singleton.
    + apply list_elem_of_singleton in Hn as ->. vm_compute in Hname. discriminate.
  - intros bp vif Hbp Hcar.
    apply elem_of_cons in Hbp as [->|Hbp]; [vm_compute in Hcar; discriminate|].
    apply list_elem_of_singleton in Hbp as ->.
    vm_compute in Hcar. injection Hcar as <-.
    exists port_A, net_A. split_and!; [left|done|left|done].
Qed.

(** The convention asks for network names that tell networks apart: with
    two networks called ["shared"], both desired, the port created for the
    first is taken for the port of the second, which is never attached. *)
Lemma same_name_networks_collide :
  result_of (run unused_port_id "N" (Some ["shared"]) cloud_twins) = Ok true ∧
  attached_network_ids
    (cloud_of (run unused_port_id "N" (Some ["shared"]) cloud_twins)) node_N
  = {["net-a-id"]} ∧
  network_ids (desired_network_objects (cloud_networks cloud_twins) ["shared"])
  = {["net-a-id"; "net-b-id"]}.
Proof. split_and!; by vm_compute. Qed.

(** The convention asks for a port to be on the network it is named
    after: asked for net-A, the module attaches the port that bears the
    name expected for net-A, and the node ends on that port's network. *)
Lemma port_on_another_network_misleads :
  result_of (run unused_port_id "N" (Some ["net-A"]) cloud_stray) = Ok true ∧
  attached_network_ids
    (cloud_of (run unused_port_id "N" (Some ["net-A"]) cloud_stray)) node_N
  = {["net-b-id"]}.
Proof. split_and!; by vm_compute. Qed.

(** C1. The state [cloud_foreign]: the node ["N"] has a free baremetal
    port and one that carries net-A through a port named ["manual-port"];
    the run is asked for net-B alone.  It finds net-A attached, looks
    for a port named ["N-net-A"] to detach, finds none and goes on; it
    attaches net-B and ends normally: the node is left on net-A and
    net-B, where net-B alone was desired. *)
Lemma convergence_fails_through_foreign_port :
  run unused_port_id "N" (Some ["net-B"]) cloud_foreign
  = (Ok true,
     mkCloud [node_N] [busy_port "bm-1" "0"; busy_port "bm-2" "port-a"]
       [net_A; net_B]
       [mkPort "port-a" "manual-port" "net-a-id" "compute:nova";
        mkPort "0" "N-net-B" "net-b-id" "baremetal:none"],
     [CreatePort "N-net-B" "net-b-id" "baremetal:none"; AttachVif "node-1" "0" "bm-1"]) ∧
  _get_currently_attached_networks
    (ports_of_node cloud_foreign "node-1") (cloud_networks cloud_foreign) cloud_foreign
  = (Ok [net_A], cloud_foreign, []) ∧
  attached_network_ids
    (cloud_of (run unused_port_id "N" (Some ["net-B"]) cloud_foreign)) node_N
  = {["net-a-id"; "net-b-id"]} ∧
  attached_network_ids
    (cloud_of (run unused_port_id "N" (Some ["net-B"]) cloud_foreign)) node_N
  ≠ network_ids (desired_network_objects (cloud_networks cloud_foreign) ["net-B"]).
Proof.
  split_and!; [by vm_compute|by vm_compute|by vm_compute|].
  apply (bool_decide_eq_false_1 _). by vm_compute.
Qed.

Lemma reconcile_converges_witness :
  attached_network_ids
    (cloud_of (run unused_port_id "N" (Some ["net-B"]) cloud_scenario)) node_N
  = network_ids
      (desired_network_objects (cloud_networks cloud_scenario)
         (default [] (Some ["net-B"]))).
Proof.
  apply (reconcile_converges unused_port_id unused_port_id_unused
           "N" (Some ["net-B"]) cloud_scenario node_N true
           _ (log_of (run unused_port_id "N" (Some ["net-B"]) cloud_scenario))).
  - reflexivity.
  - apply cloud_scenario_follows_convention.
  - vm_compute. reflexivity.
Defined.

(** C2. The state [cloud_misnamed]: net-B hangs on a port that bears the
    name expected for net-A, and net-A on a port of another name.  Asked
    for net-B alone, the first run takes the port named after net-A for
    net-A's, detaches it, and ends normally, leaving the node on net-A;
    the second run, with the same parameters, creates a port for net-B
    and attaches it: it reports a change. *)
Lemma idempotence_fails_through_misnamed_port :
  run unused_port_id "N" (Some ["net-B"]) cloud_misnamed
  = (Ok true,
     mkCloud [node_N] [free_port "bm-1"; busy_port "bm-2" "port-y"] [net_A; net_B]
       [mkPort "port-y" "manual-port" "net-a-id" "compute:nova"],
     [DetachVif "node-1" "port-x"; DeletePort "port-x"]) ∧
  run unused_port_id "N" (Some ["net-B"])
    (cloud_of (run unused_port_id "N" (Some ["net-B"]) cloud_misnamed))
  ≠ (Ok false, cloud_of (run unused_port_id "N" (Some ["net-B"]) cloud_misnamed), []) ∧
  result_of
    (run unused_port_id "N" (Some ["net-B"])
       (cloud_of (run unused_port_id "N" (Some ["net-B"]) cloud_misnamed))) = Ok true ∧
  log_of
    (run unused_port_id "N" (Some ["net-B"])
       (cloud_of (run unused_port_id "N" (Some ["net-B"]) cloud_misnamed))) =
  [CreatePort "N-net-B" "net-b-id" "baremetal:none"; AttachVif "node-1" "0" "bm-1"].
Proof.
  split_and!; [by vm_compute| |by vm_compute|by vm_compute].
  intros H. apply (f_equal log_of) in H. vm_compute in H. discriminate.
Qed.

Lemma reconcile_idempotent_witness :
  run unused_port_id "N" (Some ["net-B"])
    (cloud_of (run unused_port_id "N" (Some ["net-B"]) cloud_scenario))
  = (Ok false, cloud_of (run unused_port_id "N" (Some ["net-B"]) cloud_scenario), []).
Proof.
  apply (reconcile_idempotent unused_port_id unused_port_id_unused
           "N" (Some ["net-B"]) cloud_scenario node_N true
           _ (log_of (run unused_port_id "N" (Some ["net-B"]) cloud_scenario))).
  - reflexivity.
  - apply cloud_scenario_follows_convention.
  - vm_compute. reflexivity.
Defined.

(** C3. The state [cloud_foreign] again: with the empty list, with no
    list and with a list that matches nothing, the run finds net-A
    attached, looks for a port named ["N-net-A"], finds none and ends
    normally without a single call: net-A, attached through a port of
    another name, is attached as before. *)
Lemma unmatched_list_leaves_foreign_port_attached :
  run unused_port_id "N" (Some []) cloud_foreign = (Ok false, cloud_foreign, []) ∧
  run unused_port_id "N" None cloud_foreign = (Ok false, cloud_foreign, []) ∧
  run unused_port_id "N" (Some ["does-not-exist"]) cloud_foreign
  = (Ok false, cloud_foreign, []) ∧
  _get_currently_attached_networks
    (ports_of_node cloud_foreign "node-1") (cloud_networks cloud_foreign) cloud_foreign
  = (Ok [net_A], cloud_foreign, []) ∧
  attached_network_ids
    (cloud_of (run unused_port_id "N" (Some []) cloud_foreign)) node_N
  = {["net-a-id"]}.
Proof. split_and!; by vm_compute. Qed.

Lemma unmatched_desired_list_only_detaches_witness :
  run unused_port_id "N" (Some ["does-not-exist"]) cloud_scenario
  = run unused_port_id "N" (Some []) cloud_scenario ∧
  run unused_port_id "N" (Some ["does-not-exist"]) cloud_scenario
  = run unused_port_id "N" None cloud_scenario ∧
  ∃ changed,
    result_of (run unused_port_id "N" (Some ["does-not-exist"]) cloud_scenario)
    = Ok changed ∧
    attached_network_ids
      (cloud_of (run unused_port_id "N" (Some ["does-not-exist"]) cloud_scenario)) node_N
    = ∅.
Proof.
  destruct (unmatched_desired_list_only_detaches unused_port_id
              "N" ["does-not-exist"] cloud_scenario node_N)
    as (H1 & H2 & _ & _ & H5).
  - reflexivity.
  - intros net Hnet. split; apply (bool_decide_unpack _);
      (apply elem_of_cons in Hnet as [->|Hnet];
       [|apply list_elem_of_singleton in Hnet as ->]); by vm_compute.
  - split_and!; [exact H1|exact H2|].
    apply H5, cloud_scenario_follows_convention.
Defined.

Lemma port_exhaustion_is_a_hard_stop_witness :
  result_of (run unused_port_id "N" (Some ["net-B"; "net-C"]) cloud_full)
  = Raise (fail_json
             "Node node-1 has no free ports                     for network net-C") ∧
  log_of (run unused_port_id "N" (Some ["net-B"; "net-C"]) cloud_full)
  = [DetachVif "node-1" "port-a"; DeletePort "port-a";
     CreatePort "N-net-B" "net-b-id" "baremetal:none"; AttachVif "node-1" "0" "bm-1";
     CreatePort "N-net-C" "net-c-id" "baremetal:none"].
Proof.
  assert (_get_currently_attached_networks
            (ports_of_node cloud_full (node_id node_N)) (cloud_networks cloud_full)
            cloud_full
          = (Ok [net_A], cloud_full, [])) as Hfound by (vm_compute; reflexivity).
  edestruct (λ changed0 c0 t0,
               port_exhaustion_is_a_hard_stop unused_port_id
                 "N" (Some ["net-B"; "net-C"]) cloud_full node_N [net_A] eq_refl Hfound
                 changed0 c0 t0 [net_B] net_C []) as (Hrun & _).
  - vm_compute. reflexivity.
  - vm_compute. reflexivity.
  - vm_compute. reflexivity.
  - intros bp Hbp Hcar. vm_compute in Hbp.
    apply list_elem_of_singleton in Hbp as ->. vm_compute in Hcar. discriminate.
  - intros bp Hbp Hfree. vm_compute in Hbp.
    apply list_elem_of_singleton in Hbp as ->. vm_compute in Hfree. discriminate.
  - rewrite Hrun. split; vm_compute; reflexivity.
Defined.

Lemma not_found_before_any_mutation_witness :
  lookup_node cloud_scenario "no-such-node" = None ∧
  run unused_port_id "no-such-node" (Some ["net-B"]) cloud_scenario
  = (Raise (ResourceNotFound "no-such-node"), cloud_scenario, []).
Proof.
  split; [reflexivity|].
  apply (not_found_before_any_mutation unused_port_id). reflexivity.
Defined.

(** Two networks to detach and two to attach: asked for net-D and net-C,
    in that order, on a node that carries net-A and net-B, the run
    detaches net-A then net-B, the order of the node's ports, and
    attaches net-C then net-D, the order of the network list. *)
Lemma detach_phase_precedes_attach_phase_witness :
  ∃ detached attached,
    log_of (run unused_port_id "N" (Some ["net-D"; "net-C"]) cloud_pair)
    = concat detached ++ concat attached ∧
    detached = [[DetachVif "node-1" "port-a"; DeletePort "port-a"];
                [DetachVif "node-1" "port-b"; DeletePort "port-b"]] ∧
    attached = [[CreatePort "N-net-C" "net-c-id" "baremetal:none";
                 AttachVif "node-1" "0" "bm-1"];
                [CreatePort "N-net-D" "net-d-id" "baremetal:none";
                 AttachVif "node-1" "1" "bm-2"]].
Proof.
  destruct (detach_phase_precedes_attach_phase unused_port_id
              "N" (Some ["net-D"; "net-C"]) cloud_pair)
    as (detached & attached & Hlog & _ & _ & Hnode).
  destruct (Hnode node_N [net_A; net_B] eq_refl) as (reached & c1 & Hdet & _ & Hatt & Hall & _).
  { vm_compute. reflexivity. }
  rewrite (Hall true) in Hatt by (by vm_compute).
  exists detached, attached. split; [exact Hlog|].
  assert (iterations
            (detach_step node_N (ports_of_node cloud_pair (node_id node_N)))
            [net_A; net_B] cloud_pair detached c1) as Hdet' by exact Hdet.
  apply iterations_cons_inv in Hdet' as (d1 & ca & dr & -> & Hd1 & Hdet').
  apply (detach_step_inv _ _ false) in Hd1 as [-> ->].
  apply iterations_cons_inv in Hdet' as (d2 & cb & dr' & -> & Hd2 & Hdet').
  apply (detach_step_inv _ _ false) in Hd2 as [-> ->].
  apply iterations_nil_inv in Hdet' as [-> ->].
  assert (iterations (attach_step unused_port_id node_N) [net_C; net_D]
            (cloud_of
               (detach_network node_N (ports_of_node cloud_pair (node_id node_N)) false net_B
                  (cloud_of
                     (detach_network node_N (ports_of_node cloud_pair (node_id node_N))
                        false net_A cloud_pair))))
            attached
            (cloud_of (run unused_port_id "N" (Some ["net-D"; "net-C"]) cloud_pair)))
    as Hatt' by exact Hatt.
  apply iterations_cons_inv in Hatt' as (a1 & cc & ar & -> & Ha1 & Hatt').
  apply (attach_step_inv _ _ ([], false)) in Ha1 as [-> ->].
  apply iterations_cons_inv in Hatt' as (a2 & cd & ar' & -> & Ha2 & Hatt').
  apply (attach_step_inv _ _ ([], false)) in Ha2 as [-> ->].
  apply iterations_nil_inv in Hatt' as [-> _].
  split; vm_compute; reflexivity.
Defined.

Lemma exhaustion_leaves_created_port_witness :
  ∃ c1 t,
    cloud_of (run unused_port_id "N" (Some ["net-B"; "net-C"]) cloud_full)
    = add_port (mkPort (unused_port_id c1) "N-net-C" "net-c-id" "baremetal:none") c1 ∧
    log_of (run unused_port_id "N" (Some ["net-B"; "net-C"]) cloud_full)
    = t ++ [CreatePort "N-net-C" "net-c-id" "baremetal:none"].
Proof.
  destruct (exhaustion_leaves_created_port unused_port_id
              "N" (Some ["net-B"; "net-C"]) cloud_full node_N
              (fail_json "Node node-1 has no free ports                     for network net-C")
              (cloud_of (run unused_port_id "N" (Some ["net-B"; "net-C"]) cloud_full))
              (log_of (run unused_port_id "N" (Some ["net-B"; "net-C"]) cloud_full)))
    as [(vif & He & _)
       |(changed0 & c0 & t0 & reached & network & rest & s1 & c1 & t1 &
         _ & Hdet & Hsplit & Hreached & He & Hcreated & _)].
  - reflexivity.
  - vm_compute. reflexivity.
  - discriminate.
  - assert (reached = [net_B] ∧ network = net_C) as [-> ->].
    { vm_compute in Hsplit. injection He as He.
      destruct reached as [|n1 [|n2 reached]].
      - injection Hsplit as <- _. vm_compute in He. discriminate.
      - by injection Hsplit as <- <- _.
      - injection Hsplit as _ _ Hsplit. by destruct reached. }
    vm_compute in Hdet. injection Hdet as <- <- <-.
    vm_compute in Hreached. injection Hreached as <- <- <-.
    destruct Hcreated as (Hc & Ht & _); [by vm_compute|].
    rewrite app_assoc in Ht. eexists _, _. split; [exact Hc|exact Ht].
Defined.

(** C10: asked for net-B and net-C on a node with a single baremetal port
    that carries net-A, the run detaches net-A, attaches net-B and then
    fails for want of a free port: VIF calls were issued, and the run
    reports a failure, not [changed = true]. *)
Lemma failed_run_reports_no_change :
  Exists is_vif_call (log_of (run unused_port_id "N" (Some ["net-B"; "net-C"]) cloud_full)) ∧
  result_of (run unused_port_id "N" (Some ["net-B"; "net-C"]) cloud_full) ≠ Ok true ∧
  ¬ (result_of (run unused_port_id "N" (Some ["net-B"; "net-C"]) cloud_full) = Ok true ↔
     Exists is_vif_call
       (log_of (run unused_port_id "N" (Some ["net-B"; "net-C"]) cloud_full))).
Proof.
  assert (Exists is_vif_call
            (log_of (run unused_port_id "N" (Some ["net-B"; "net-C"]) cloud_full))) as Hcall.
  { apply Exists_exists. exists (DetachVif "node-1" "port-a"). split; [|done].
    vm_compute. left. }
  assert (result_of (run unused_port_id "N" (Some ["net-B"; "net-C"]) cloud_full) ≠ Ok true)
    as Hres by (vm_compute; discriminate).
  split_and!; [done|done|]. intros [_ H]. by apply Hres, H.
Qed.

Lemma changed_iff_vif_call_witness :
  result_of (run unused_port_id "N" (Some ["net-B"]) cloud_scenario) = Ok true ∧
  Exists is_vif_call (log_of (run unused_port_id "N" (Some ["net-B"]) cloud_scenario)).
Proof.
  split; [by vm_compute|].
  destruct (changed_iff_vif_call unused_port_id "N" (Some ["net-B"]) cloud_scenario)
    as (Hiff & _).
  apply (Hiff true); by vm_compute.
Defined.

(** ** The further statements on the example states *)

Lemma uncarried_port_id_uncarried c bp :
  bp ∈ cloud_baremetal_ports c → ¬ carries (uncarried_port_id c) bp.
Proof.
  intros Hbp Hcar.
  apply (infinite_is_fresh ((port_id <$> cloud_ports c) ++ carried_vifs c)).
  apply elem_of_app. right. apply list_elem_of_omap. by exists bp.
Qed.

Lemma cloud_full_follows_convention : follows_convention cloud_full node_N.
Proof.
  split.
  - by apply (bool_decide_unpack _); vm_compute.
  - by apply (bool_decide_unpack _); vm_compute.
  - by apply (bool_decide_unpack _); vm_compute.
  - by apply (bool_decide_unpack _); vm_compute.
  - intros n p Hn Hp Hname.
    apply list_elem_of_singleton in Hp as ->.
    apply elem_of_cons in Hn as [->|Hn].
    { split; [done|]. by intros q ->%list_elem_of_singleton. }
    apply elem_of_cons in Hn as [->|Hn]; [vm_compute in Hname; discriminate|].
    apply list_elem_of_singleton in Hn as ->. vm_compute in Hname. discriminate.
  - intros bp vif Hbp Hcar.
    apply list_elem_of_singleton in Hbp as ->.
    vm_compute in Hcar. injection Hcar as <-.
    exists port_A, net_A. split_and!; [left|done|left|done].
Qed.

Lemma satisfied_state_is_a_no_op_witness :
  run unused_port_id "N" (Some ["net-a-id"]) cloud_scenario
  = (Ok false, cloud_scenario, []).
Proof.
  apply (satisfied_state_is_a_no_op unused_port_id "N" (Some ["net-a-id"])
           cloud_scenario node_N [net_A]).
  - reflexivity.
  - vm_compute. reflexivity.
  - vm_compute. reflexivity.
Defined.

Lemma run_depends_on_reference_set_witness :
  run unused_port_id "N" (Some ["net-B"; "net-b-id"; "net-B"]) cloud_scenario
  = run unused_port_id "N" (Some ["net-b-id"; "net-B"]) cloud_scenario.
Proof.
  apply (run_depends_on_reference_set unused_port_id).
  intros x. rewrite !elem_of_cons, !elem_of_nil. tauto.
Defined.

Lemma enough_free_ports_no_failure_witness :
  (∀ msg, result_of (run unused_port_id "N" (Some ["net-B"]) cloud_scenario)
          ≠ Raise (fail_json msg)) ∧
  ∃ changed,
    result_of (run unused_port_id "N" (Some ["net-B"]) cloud_scenario) = Ok changed.
Proof.
  destruct (enough_free_ports_no_failure unused_port_id "N" (Some ["net-B"])
              cloud_scenario node_N) as [Hno Hok].
  - reflexivity.
  - by apply (bool_decide_unpack _); vm_compute.
  - vm_compute. lia.
  - split; [exact Hno|]. apply (Hok [net_A]). vm_compute. reflexivity.
Defined.

(** The fourth way a run ends: the VIF recorded on the node's port names
    two ports, [find_port] raises, and the run ends there. *)
Lemma ambiguous_vif_ends_the_run :
  run unused_port_id "N" (Some ["net-B"]) cloud_ambiguous
  = (Raise (DuplicateResource "twin"), cloud_ambiguous, []).
Proof. by vm_compute. Qed.

Lemma unchanged_run_is_a_no_op_witness :
  cloud_of (run uncarried_port_id "N" (Some ["net-A"]) cloud_scenario) = cloud_scenario ∧
  log_of (run uncarried_port_id "N" (Some ["net-A"]) cloud_scenario) = [].
Proof.
  apply (unchanged_run_is_a_no_op uncarried_port_id uncarried_port_id_uncarried
           "N" (Some ["net-A"]) cloud_scenario).
  vm_compute. reflexivity.
Defined.

Lemma run_issues_at_most_two_calls_per_network_witness :
  length (log_of (run unused_port_id "N" (Some ["net-B"]) cloud_scenario)) ≤ 2 * 1 + 2 * 1.
Proof.
  exact (run_issues_at_most_two_calls_per_network unused_port_id
           "N" (Some ["net-B"]) cloud_scenario node_N eq_refl).
Defined.

Lemma port_deleted_right_after_its_detach_witness :
  ∃ node pre',
    lookup_node cloud_scenario "N" = Some node ∧
    [DetachVif "node-1" "port-a"] = pre' ++ [DetachVif (node_id node) "port-a"].
Proof.
  destruct (port_deleted_right_after_its_detach unused_port_id
              "N" (Some ["net-B"]) cloud_scenario
              [DetachVif "node-1" "port-a"] (DeletePort "port-a")
              [CreatePort "N-net-B" "net-b-id" "baremetal:none";
               AttachVif "node-1" "0" "bm-1"]) as [Hdel _].
  - vm_compute. reflexivity.
  - exact (Hdel "port-a" eq_refl).
Defined.

Lemma run_keeps_port_names_distinct_witness :
  NoDup (port_name <$>
           cloud_ports (cloud_of (run unused_port_id "N" (Some ["net-A"; "net-B"])
                                    cloud_scenario))).
Proof.
  apply (run_keeps_port_names_distinct unused_port_id).
  by apply (bool_decide_unpack _); vm_compute.
Defined.

Lemma run_keeps_convention_witness :
  follows_convention
    (cloud_of (run unused_port_id "N" (Some ["net-B"; "net-C"]) cloud_full)) node_N.
Proof.
  apply (run_keeps_convention unused_port_id unused_port_id_unused).
  - reflexivity.
  - apply cloud_full_follows_convention.
Defined.

Lemma desired_attached_network_undisturbed_witness :
  port_A ∈ cloud_ports
             (cloud_of (run unused_port_id "N" (Some ["net-A"; "net-B"]) cloud_scenario)) ∧
  (DetachVif "node-1" "port-a"
   ∉ log_of (run unused_port_id "N" (Some ["net-A"; "net-B"]) cloud_scenario)).
Proof.
  destruct (desired_attached_network_undisturbed unused_port_id unused_port_id_unused
              "N" (Some ["net-A"; "net-B"]) cloud_scenario node_N net_A port_A
              (busy_port "bm-2" "port-a")) as (Hport & _ & Hdetach & _).
  - reflexivity.
  - apply cloud_scenario_follows_convention.
  - by apply (bool_decide_unpack _); vm_compute.
  - left.
  - reflexivity.
  - by apply (bool_decide_unpack _); vm_compute.
  - reflexivity.
  - split; [exact Hport|exact Hdetach].
Defined.
